(** * GoldWen matching service: a shallow embedding and its properties

    The development follows [app/services/matching_service.py],
    [app/api/v1/endpoints/matching.py], [app/models/user.py] and
    [app/core/config.py].

    - Python [float] and the SQL [Float] columns are IEEE-754 binary64
      numbers: Rocq's primitive [float].
    - Python [int] and the SQL [Integer] columns are [Z].
    - A [datetime] is the number of seconds since the epoch, as a [Z];
      the calendar date of a timestamp is its quotient by 86400.  Each
      request reads the clock once ([now]); the few [utcnow()] calls of one
      request are taken to return that same instant.
    - A table is the list of its rows in the order the store returns them
      to a query that has no [ORDER BY]; an inserted row goes last.
    - An operation that writes takes the database and returns the new one. *)

From Stdlib Require Import ZArith List Bool Lia Floats Permutation.
From Stdlib Require String.
From Stdlib Require Import Reals Lra.
Import ListNotations.
Open Scope Z_scope.

Set Implicit Arguments.

(** ** Settings ([app/core/config.py]) *)

Module settings.
Definition MAX_DAILY_PROFILES : nat := 5.
Definition MIN_DAILY_PROFILES : nat := 3.
(** The double nearest to 0.6. *)
Definition COMPATIBILITY_THRESHOLD : float := 0x1.3333333333333p-1%float.
Definition PERSONALITY_QUESTIONS_COUNT : nat := 10.
End settings.

(** ** Python and SQL primitives used by the service *)

Definition string := String.string.

Definition datetime := Z.

Definition seconds_per_day : Z := 86400.

(** [d.date()] and SQL [func.date(d)]. *)
Definition date (d : datetime) : Z := d / seconds_per_day.

(** [timedelta(days=n)] and [timedelta(hours=n)]. *)
Definition timedelta_days (n : Z) : Z := n * seconds_per_day.
Definition timedelta_hours (n : Z) : Z := n * 3600.

(** [float(n)] for an [Integer] column value (exact below 2^53). *)
Definition float_of_int (n : Z) : float :=
  match n with
  | Z0 => 0%float
  | Zpos _ => PrimFloat.of_uint63 (Uint63.of_Z n)
  | Zneg p => (- PrimFloat.of_uint63 (Uint63.of_Z (Zpos p)))%float
  end.

(** [query.first()]. *)
Definition first {A} (p : A -> bool) (rows : list A) : option A := find p rows.

(** [list.sort] and [ORDER BY] are stable: rows that compare equal keep the
    order they had.  [before y x] says that [y] sorts strictly before [x]. *)
Section StableSort.
Variable A : Type.
Variable before : A -> A -> bool.

Fixpoint insert_sorted (x : A) (l : list A) : list A :=
  match l with
  | [] => [x]
  | y :: l' => if before y x then y :: insert_sorted x l' else x :: y :: l'
  end.

Definition stable_sort (l : list A) : list A :=
  fold_right insert_sorted [] l.

(** No element sorts strictly before the one in front of it. *)
Fixpoint in_order (l : list A) : Prop :=
  match l with
  | [] => True
  | x :: l' =>
    match l' with
    | [] => True
    | y :: _ => before y x = false /\ in_order l'
    end
  end.
End StableSort.

(** [l[:n]] for a Python [int] [n], negative values included. *)
Definition slice_to {A} (n : Z) (l : list A) : list A :=
  if n <? 0 then firstn (Z.to_nat (Z.of_nat (length l) + n)) l
  else firstn (Z.to_nat n) l.

(** [enumerate(l)] with positions counted from [i]. *)
Fixpoint enumerate_from {A} (i : Z) (l : list A) : list (Z * A) :=
  match l with
  | [] => []
  | x :: l' => (i, x) :: enumerate_from (i + 1) l'
  end.

(** Truth value of an optional float, as [if x:] tests it: [None] and zero
    are false, everything else (NaN included) is true. *)
Definition truthy_float (x : option float) : bool :=
  match x with
  | None => false
  | Some f => negb (f =? 0)%float
  end.

(** ** Cosine similarity ([MatchingService._cosine_similarity]) *)

(** [np.dot] of two vectors of the same length, the products added from
    left to right.  (The answers of the questionnaire are small integers:
    products and sums are then exact, whatever the order of the additions.) *)
Definition dot (v1 v2 : list float) : float :=
  fold_left (fun acc p => (acc + fst p * snd p)%float) (combine v1 v2) 0%float.

(** [np.linalg.norm] of a one-dimensional array: [sqrt(x.dot(x))]. *)
Definition norm (v : list float) : float := PrimFloat.sqrt (dot v v).

Definition _cosine_similarity (vec1 vec2 : list float) : float :=
  if negb (length vec1 =? length vec2)%nat then 0%float
  else
    let dot_product := dot vec1 vec2 in
    let norm1 := norm vec1 in
    let norm2 := norm vec2 in
    if (norm1 =? 0)%float || (norm2 =? 0)%float then 0%float
    else (dot_product / (norm1 * norm2))%float.

(** ** Tables ([app/models/user.py])

    The surrogate [id] of the rows other than [User] is assigned by the
    store and takes no part in any decision of the service; it is left out.  [email],
    [created_at] and [updated_at] are not read either. *)

Record User := mkUser {
  id : Z;
  first_name : string;
  age : Z;
  gender : string;
  location_city : string;
  location_latitude : option float;
  location_longitude : option float;
  is_premium : bool;
  is_active : bool
}.

Record PersonalityResponse := mkPersonalityResponse {
  pr_user_id : Z;
  question_id : Z;
  response_value : Z
}.

Record DailySelection := mkDailySelection {
  ds_user_id : Z;
  candidate_user_id : Z;
  ds_compatibility_score : float;
  selection_date : datetime;
  ds_rank_position : Z
}.

Record UserChoice := mkUserChoice {
  uc_user_id : Z;
  chosen_user_id : Z;
  choice_date : datetime;
  is_match : bool
}.

Record CompatibilityCache := mkCompatibilityCache {
  user1_id : Z;
  user2_id : Z;
  cc_compatibility_score : float;
  calculated_at : datetime
}.

(** [CompatibilityCache.__init__] orders the two ids; [calculated_at] is the
    server default [now()]. *)
Definition CompatibilityCache__init__
    (u1 u2 : Z) (score : float) (now : datetime) : CompatibilityCache :=
  let '(u1, u2) := if u1 >? u2 then (u2, u1) else (u1, u2) in
  mkCompatibilityCache u1 u2 score now.

(** The session's view of the database. *)
Record DB := mkDB {
  users : list User;
  personality_responses : list PersonalityResponse;
  daily_selections : list DailySelection;
  user_choices : list UserChoice;
  compatibility_cache : list CompatibilityCache
}.

Definition set_compatibility_cache (db : DB) (c : list CompatibilityCache) : DB :=
  mkDB (users db) (personality_responses db) (daily_selections db)
       (user_choices db) c.

Definition set_daily_selections (db : DB) (d : list DailySelection) : DB :=
  mkDB (users db) (personality_responses db) d
       (user_choices db) (compatibility_cache db).

Definition set_user_choices (db : DB) (c : list UserChoice) : DB :=
  mkDB (users db) (personality_responses db) (daily_selections db)
       c (compatibility_cache db).

(** [db.query(User).filter(User.id == user_id).first()]. *)
Definition get_user (db : DB) (user_id : Z) : option User :=
  first (fun u => id u =? user_id) (users db).

(** ** Response schema ([app/schemas/matching.py]) *)

Record DailySelectionCandidate := mkDailySelectionCandidate {
  user_id : Z;
  dsc_first_name : string;
  dsc_age : Z;
  dsc_location_city : string;
  compatibility_score : float;
  rank_position : Z
}.

(** ** MatchingService ([app/services/matching_service.py]) *)

Definition _get_personality_vector (db : DB) (uid : Z) : option (list float) :=
  let responses :=
    stable_sort (fun r1 r2 => question_id r1 <? question_id r2)
      (filter (fun r => pr_user_id r =? uid) (personality_responses db)) in
  if negb (length responses =? settings.PERSONALITY_QUESTIONS_COUNT)%nat
  then None
  else Some (map (fun r => float_of_int (response_value r)) responses).

(** The canonical order of a pair of ids. *)
Definition ordered (u1 u2 : Z) : Z * Z :=
  if u1 >? u2 then (u2, u1) else (u1, u2).

Definition _get_cached_compatibility
    (db : DB) (user1_id0 user2_id0 : Z) (now : datetime) : option float :=
  let '(u1, u2) := ordered user1_id0 user2_id0 in
  let cache_cutoff := now - timedelta_hours 24 in
  let cached :=
    first (fun c => (user1_id c =? u1) && (user2_id c =? u2)
                    && (calculated_at c >? cache_cutoff))
          (compatibility_cache db) in
  match cached with
  | Some c => Some (cc_compatibility_score c)
  | None => None
  end.

Definition _cache_compatibility
    (db : DB) (user1_id0 user2_id0 : Z) (score : float) (now : datetime) : DB :=
  let '(u1, u2) := ordered user1_id0 user2_id0 in
  let kept :=
    filter (fun c => negb ((user1_id c =? u1) && (user2_id c =? u2)))
           (compatibility_cache db) in
  set_compatibility_cache db (kept ++ [CompatibilityCache__init__ u1 u2 score now]).

(** [not v] for an optional list: it holds of [None] and of the empty list. *)
Definition falsy_vector (v : option (list float)) : bool :=
  match v with
  | None => true
  | Some [] => true
  | Some _ => false
  end.

Definition calculate_compatibility_score
    (db : DB) (user1_id0 user2_id0 : Z) (now : datetime) : float * DB :=
  match _get_cached_compatibility db user1_id0 user2_id0 now with
  | Some cached_score => (cached_score, db)
  | None =>
    let user1_responses := _get_personality_vector db user1_id0 in
    let user2_responses := _get_personality_vector db user2_id0 in
    if falsy_vector user1_responses || falsy_vector user2_responses
    then (0%float, db)
    else
      match user1_responses, user2_responses with
      | Some v1, Some v2 =>
        let score := _cosine_similarity v1 v2 in
        (score, _cache_compatibility db user1_id0 user2_id0 score now)
      | _, _ => (0%float, db)
      end
  end.

Definition _get_excluded_user_ids (db : DB) (uid : Z) (now : datetime) : list Z :=
  let excluded_ids := [uid] in
  let cutoff_date := now - timedelta_days 30 in
  let chosen_users :=
    filter (fun c => (uc_user_id c =? uid) && (choice_date c >? cutoff_date))
           (user_choices db) in
  let excluded_ids := excluded_ids ++ map chosen_user_id chosen_users in
  let recent_selections :=
    filter (fun s => (ds_user_id s =? uid)
                     && (selection_date s >? now - timedelta_days 7))
           (daily_selections db) in
  let excluded_ids := excluded_ids ++ map candidate_user_id recent_selections in
  nodup Z.eq_dec excluded_ids.

Definition mem (x : Z) (l : list Z) : bool := existsb (Z.eqb x) l.

Definition _get_potential_candidates
    (db : DB) (user : User) (excluded_ids : list Z) : list User :=
  let query :=
    filter (fun u => negb (mem (id u) excluded_ids)
                     && is_active u
                     && negb (String.eqb (gender u) (gender user))
                     && (Z.abs (age u - age user) <=? 10))
           (users db) in
  let query :=
    if truthy_float (location_latitude user)
       && truthy_float (location_longitude user)
    then filter (fun u => match location_latitude u, location_longitude u with
                          | Some _, Some _ => true
                          | _, _ => false
                          end) query
    else query in
  firstn 50 query.

Definition same_day_selection (uid : Z) (day : Z) (s : DailySelection) : bool :=
  (ds_user_id s =? uid) && (date (selection_date s) =? day).

(** The row stored for one candidate of a selection. *)
Definition selection_row
    (uid : Z) (selection_date0 : datetime) (c : DailySelectionCandidate)
    : DailySelection :=
  mkDailySelection uid (user_id c) (compatibility_score c)
                   selection_date0 (rank_position c).

Definition _store_daily_selection
    (db : DB) (uid : Z) (candidates : list DailySelectionCandidate)
    (now : datetime) : DB :=
  let selection_date0 := date now * seconds_per_day + 12 * 3600 in
  let kept :=
    filter (fun s => negb (same_day_selection uid (date selection_date0) s))
           (daily_selections db) in
  let added := map (selection_row uid selection_date0) candidates in
  set_daily_selections db (kept ++ added).

(** The scoring loop shared by the daily selection and the ad-hoc ranking:
    every candidate is scored (reading and filling the cache) and kept when
    the score reaches the threshold. *)
Fixpoint score_candidates
    (db : DB) (uid : Z) (candidates : list User) (now : datetime)
    (scored_candidates : list (User * float)) : list (User * float) * DB :=
  match candidates with
  | [] => (scored_candidates, db)
  | candidate :: rest =>
    let '(score, db') := calculate_compatibility_score db uid (id candidate) now in
    if (settings.COMPATIBILITY_THRESHOLD <=? score)%float
    then score_candidates db' uid rest now (scored_candidates ++ [(candidate, score)])
    else score_candidates db' uid rest now scored_candidates
  end.

(** [scored_candidates.sort(key=lambda x: x[1], reverse=True)]: highest score
    first, equal scores in the order they had.  (The scores in the list have
    passed the threshold test, so none of them is NaN.) *)
Definition sort_by_score (l : list (User * float)) : list (User * float) :=
  stable_sort (fun y x => (snd x <? snd y)%float) l.

Definition to_candidate (p : Z * (User * float)) : DailySelectionCandidate :=
  let '(i, (candidate, score)) := p in
  mkDailySelectionCandidate (id candidate) (first_name candidate) (age candidate)
                            (location_city candidate) score (i + 1).

Definition generate_daily_selection
    (db : DB) (uid : Z) (now : datetime) : list DailySelectionCandidate * DB :=
  match get_user db uid with
  | None => ([], db)
  | Some user =>
    let excluded_ids := _get_excluded_user_ids db uid now in
    let candidates := _get_potential_candidates db user excluded_ids in
    let '(scored_candidates, db1) := score_candidates db uid candidates now [] in
    let scored_candidates := sort_by_score scored_candidates in
    let top_candidates := firstn settings.MAX_DAILY_PROFILES scored_candidates in
    let top_candidates :=
      if (length top_candidates <? settings.MIN_DAILY_PROFILES)%nat
         && (settings.MIN_DAILY_PROFILES <=? length scored_candidates)%nat
      then firstn settings.MIN_DAILY_PROFILES scored_candidates
      else top_candidates in
    let selection_candidates := map to_candidate (enumerate_from 0 top_candidates) in
    (selection_candidates, _store_daily_selection db1 uid selection_candidates now)
  end.

(** The conversion loop of [get_today_selection]: a stored row whose candidate
    no longer exists is skipped. *)
Definition stored_candidate (db : DB) (s : DailySelection)
    : option DailySelectionCandidate :=
  match get_user db (candidate_user_id s) with
  | Some candidate_user =>
    Some (mkDailySelectionCandidate
            (id candidate_user) (first_name candidate_user) (age candidate_user)
            (location_city candidate_user) (ds_compatibility_score s)
            (ds_rank_position s))
  | None => None
  end.

Fixpoint filter_map {A B} (f : A -> option B) (l : list A) : list B :=
  match l with
  | [] => []
  | x :: l' =>
    match f x with
    | Some y => y :: filter_map f l'
    | None => filter_map f l'
    end
  end.

Definition today_selections (db : DB) (uid : Z) (now : datetime) : list DailySelection :=
  stable_sort (fun s1 s2 => ds_rank_position s1 <? ds_rank_position s2)
    (filter (same_day_selection uid (date now)) (daily_selections db)).

Definition get_today_selection
    (db : DB) (uid : Z) (now : datetime) : list DailySelectionCandidate * DB :=
  match today_selections db uid now with
  | [] => generate_daily_selection db uid now
  | selections => (filter_map (stored_candidate db) selections, db)
  end.

(** ** Endpoints ([app/api/v1/endpoints/matching.py]) *)

Record HTTPException := mkHTTPException { status_code : Z }.

Definition NotFound : HTTPException := mkHTTPException 404.
Definition QuotaExceeded : HTTPException := mkHTTPException 429.

(** [3 if user.is_premium else 1]. *)
Definition max_choices (user : User) : Z := if is_premium user then 3 else 1.

(** The rows counted against the daily limit: the chooser's rows dated at
    or after today's midnight. *)
Definition counts_today (uid : Z) (now : datetime) (c : UserChoice) : bool :=
  (uc_user_id c =? uid) && (choice_date c >=? date now * seconds_per_day).

(** A row of the chooser dated in the calendar day of [now]. *)
Definition dated_today (uid : Z) (now : datetime) (c : UserChoice) : bool :=
  (uc_user_id c =? uid) && (date (choice_date c) =? date now).

Definition today_choices (db : DB) (uid : Z) (now : datetime) : Z :=
  Z.of_nat (length (filter (counts_today uid now) (user_choices db))).

Definition is_reverse_choice (uid chosen : Z) (c : UserChoice) : bool :=
  (uc_user_id c =? chosen) && (chosen_user_id c =? uid).

Definition set_is_match (c : UserChoice) : UserChoice :=
  mkUserChoice (uc_user_id c) (chosen_user_id c) (choice_date c) true.

(** Writing back the one row a [first()] returned. *)
Fixpoint update_first {A} (p : A -> bool) (f : A -> A) (l : list A) : list A :=
  match l with
  | [] => []
  | x :: l' => if p x then f x :: l' else x :: update_first p f l'
  end.

Definition make_user_choice
    (db : DB) (uid : Z) (chosen : Z) (now : datetime)
    : (UserChoice + HTTPException) * DB :=
  match get_user db uid with
  | None => (inr NotFound, db)
  | Some user =>
    match get_user db chosen with
    | None => (inr NotFound, db)
    | Some chosen_user =>
      if today_choices db uid now >=? max_choices user
      then (inr QuotaExceeded, db)
      else
        let user_choice := mkUserChoice uid chosen now false in
        match first (is_reverse_choice uid chosen) (user_choices db) with
        | Some reverse_choice =>
          let user_choice := set_is_match user_choice in
          let rows := update_first (is_reverse_choice uid chosen) set_is_match
                                   (user_choices db) in
          (inl user_choice, set_user_choices db (rows ++ [user_choice]))
        | None =>
          (inl user_choice, set_user_choices db (user_choices db ++ [user_choice]))
        end
    end
  end.

Record MatchingRequest := mkMatchingRequest {
  mr_user_id : Z;
  exclude_user_ids : option (list Z);
  max_results : option Z
}.

(** [min(request.max_results or 5, 10)]: [None] and [0] are both false. *)
Definition effective_max_results (max_results0 : option Z) : Z :=
  let requested :=
    match max_results0 with
    | None => 5
    | Some 0 => 5
    | Some n => n
    end in
  Z.min requested 10.

Definition get_matching_candidates
    (db : DB) (request : MatchingRequest) (now : datetime)
    : (list DailySelectionCandidate + HTTPException) * DB :=
  match get_user db (mr_user_id request) with
  | None => (inr NotFound, db)
  | Some user =>
    let original_excluded := _get_excluded_user_ids db (mr_user_id request) now in
    let extra := match exclude_user_ids request with Some l => l | None => [] end in
    let all_excluded := nodup Z.eq_dec (original_excluded ++ extra) in
    let candidates := _get_potential_candidates db user all_excluded in
    let '(scored_candidates, db1) :=
      score_candidates db (mr_user_id request) candidates now [] in
    let scored_candidates := sort_by_score scored_candidates in
    let max_results0 := effective_max_results (max_results request) in
    let top_candidates := slice_to max_results0 scored_candidates in
    (inl (map to_candidate (enumerate_from 0 top_candidates)), db1)
  end.

(** ** The other endpoints of [matching.py] *)

Record DailySelectionResponse := mkDailySelectionResponse {
  dsr_user_id : Z;
  dsr_selection_date : datetime;
  candidates : list DailySelectionCandidate;
  max_choices_allowed : Z
}.

Definition get_daily_selection
    (db : DB) (uid : Z) (now : datetime)
    : (DailySelectionResponse + HTTPException) * DB :=
  match get_user db uid with
  | None => (inr NotFound, db)
  | Some user =>
    let '(candidates0, db1) := get_today_selection db uid now in
    (inl (mkDailySelectionResponse uid now candidates0 (max_choices user)), db1)
  end.

Definition generate_new_selection
    (db : DB) (uid : Z) (now : datetime)
    : (DailySelectionResponse + HTTPException) * DB :=
  match get_user db uid with
  | None => (inr NotFound, db)
  | Some user =>
    let '(candidates0, db1) := generate_daily_selection db uid now in
    (inl (mkDailySelectionResponse uid now candidates0 (max_choices user)), db1)
  end.

Record CompatibilityScoreResponse := mkCompatibilityScoreResponse {
  csr_user1_id : Z;
  csr_user2_id : Z;
  csr_compatibility_score : float;
  csr_calculated_at : datetime
}.

Definition calculate_compatibility
    (db : DB) (u1 u2 : Z) (now : datetime)
    : (CompatibilityScoreResponse + HTTPException) * DB :=
  match get_user db u1, get_user db u2 with
  | Some _, Some _ =>
    let '(score, db1) := calculate_compatibility_score db u1 u2 now in
    (inl (mkCompatibilityScoreResponse u1 u2 score now), db1)
  | _, _ => (inr NotFound, db)
  end.

(** [get_user_choices]: the chooser's rows, latest first, cut at [limit].
    What [LIMIT] does with a negative count is the store's business
    (PostgreSQL rejects it, SQLite reads it as no limit): the model is that
    of a [limit] of 0 or more. *)
Definition get_user_choices
    (db : DB) (uid : Z) (limit : Z) : list UserChoice + HTTPException :=
  match get_user db uid with
  | None => inr NotFound
  | Some _ =>
    inl (firstn (Z.to_nat limit)
           (stable_sort (fun y x => choice_date x <? choice_date y)
              (filter (fun c => uc_user_id c =? uid) (user_choices db))))
  end.

(** ** Endpoints of [users.py] that feed the matching *)

Definition BadRequest : HTTPException := mkHTTPException 400.

Record PersonalityResponseCreate := mkPersonalityResponseCreate {
  prc_question_id : Z;
  prc_response_value : Z
}.

Definition set_personality_responses (db : DB) (r : list PersonalityResponse) : DB :=
  mkDB (users db) r (daily_selections db) (user_choices db)
       (compatibility_cache db).

Definition set_users (db : DB) (us : list User) : DB :=
  mkDB us (personality_responses db) (daily_selections db) (user_choices db)
       (compatibility_cache db).

(** The loop of [submit_personality_questionnaire]: each response is checked
    (question 1 to 10, value 1 to 5) and queued; [None] stands for the
    exception a check raises. *)
Fixpoint add_responses
    (uid : Z) (responses : list PersonalityResponseCreate)
    (db_responses : list PersonalityResponse) : option (list PersonalityResponse) :=
  match responses with
  | [] => Some db_responses
  | response :: rest =>
    if negb ((1 <=? prc_question_id response) && (prc_question_id response <=? 10))
    then None
    else if negb ((1 <=? prc_response_value response)
                  && (prc_response_value response <=? 5))
    then None
    else add_responses uid rest
           (db_responses
              ++ [mkPersonalityResponse uid (prc_question_id response)
                                        (prc_response_value response)])
  end.

(** An exception leaves the session without a commit: the delete and the
    rows queued so far are dropped with it, and the database stays as it
    was. *)
Definition submit_personality_questionnaire
    (db : DB) (uid : Z) (responses : list PersonalityResponseCreate)
    : (list PersonalityResponse + HTTPException) * DB :=
  match get_user db uid with
  | None => (inr NotFound, db)
  | Some _ =>
    if negb (length responses =? 10)%nat then (inr BadRequest, db)
    else
      let kept :=
        filter (fun r => negb (pr_user_id r =? uid)) (personality_responses db) in
      match add_responses uid responses [] with
      | None => (inr BadRequest, db)
      | Some db_responses =>
        (inl db_responses, set_personality_responses db (kept ++ db_responses))
      end
  end.

Definition set_is_premium (value : bool) (u : User) : User :=
  mkUser (id u) (first_name u) (age u) (gender u) (location_city u)
         (location_latitude u) (location_longitude u) value (is_active u).

Definition update_premium_status
    (db : DB) (uid : Z) (value : bool) : (User + HTTPException) * DB :=
  match get_user db uid with
  | None => (inr NotFound, db)
  | Some user =>
    (inl (set_is_premium value user),
     set_users db (update_first (fun u => id u =? uid) (set_is_premium value)
                                (users db)))
  end.

(** ** Sequences of choices *)

Record ChoiceCall := mkChoiceCall {
  call_user_id : Z;
  call_chosen_user_id : Z;
  call_time : datetime
}.

(** The state after a series of [make_user_choice] requests, accepted or
    not. *)
Definition make_user_choices (db : DB) (calls : list ChoiceCall) : DB :=
  fold_left
    (fun db0 c =>
       snd (make_user_choice db0 (call_user_id c) (call_chosen_user_id c)
                             (call_time c)))
    calls db.

(** Every user is within the daily limit on the day of [t]. *)
Definition within_quota (db : DB) (t : datetime) : Prop :=
  forall uid user,
    get_user db uid = Some user -> today_choices db uid t <= max_choices user.

(** The fields of a choice that are never rewritten. *)
Definition choice_key (c : UserChoice) : Z * Z * datetime :=
  (uc_user_id c, chosen_user_id c, choice_date c).

(** The row queued for one response, and the two checks it has to pass. *)
Definition response_row (uid : Z) (r : PersonalityResponseCreate)
    : PersonalityResponse :=
  mkPersonalityResponse uid (prc_question_id r) (prc_response_value r).

Definition valid_response (r : PersonalityResponseCreate) : Prop :=
  1 <= prc_question_id r <= 10 /\ 1 <= prc_response_value r <= 5.

(** ** Sequences of cache operations

    A read ([_get_cached_compatibility]) leaves the table as it is; a write
    ([_cache_compatibility]) and a score computation
    ([calculate_compatibility_score]) may change it. *)

Inductive CacheOp :=
| CacheGet (u1 u2 : Z) (now : datetime)
| CachePut (u1 u2 : Z) (score : float) (now : datetime)
| CacheScore (u1 u2 : Z) (now : datetime).

Definition run_cache_op (db : DB) (op : CacheOp) : DB :=
  match op with
  | CacheGet u1 u2 now =>
    match _get_cached_compatibility db u1 u2 now with
    | Some _ => db
    | None => db
    end
  | CachePut u1 u2 score now => _cache_compatibility db u1 u2 score now
  | CacheScore u1 u2 now => snd (calculate_compatibility_score db u1 u2 now)
  end.

Definition run_cache_ops (db : DB) (ops : list CacheOp) : DB :=
  fold_left run_cache_op ops db.

(** The rows of the unordered pair [{a, b}], whichever way round they are
    stored. *)
Definition rows_of_pair (a b : Z) (cache : list CompatibilityCache)
    : list CompatibilityCache :=
  filter (fun c => ((user1_id c =? a) && (user2_id c =? b))
                   || ((user1_id c =? b) && (user2_id c =? a)))
         cache.

(** Every row is stored under [(min, max)], and no unordered pair has two
    rows. *)
Definition canonical_cache (cache : list CompatibilityCache) : Prop :=
  (forall c, In c cache -> user1_id c <= user2_id c)
  /\ (forall a b, (length (rows_of_pair a b cache) <= 1)%nat).

(** ** Vocabulary of the statements *)

(** [l1] is [l2] with some elements left out, the rest in the same order. *)
Inductive subseq {A : Type} : list A -> list A -> Prop :=
| subseq_nil : subseq [] []
| subseq_skip (x : A) (l1 l2 : list A) : subseq l1 l2 -> subseq l1 (x :: l2)
| subseq_keep (x : A) (l1 l2 : list A) : subseq l1 l2 -> subseq (x :: l1) (x :: l2).

(** Two states that differ in the compatibility cache at most. *)
Definition same_tables (db db' : DB) : Prop :=
  users db' = users db
  /\ personality_responses db' = personality_responses db
  /\ daily_selections db' = daily_selections db
  /\ user_choices db' = user_choices db.

(** [score >= settings.COMPATIBILITY_THRESHOLD]. *)
Definition reaches_threshold (score : float) : bool :=
  (settings.COMPATIBILITY_THRESHOLD <=? score)%float.

(** The subject chose [x] after [now] minus 30 days. *)
Definition chosen_recently (db : DB) (uid : Z) (now : datetime) (x : Z) : Prop :=
  exists c, In c (user_choices db) /\ uc_user_id c = uid
            /\ choice_date c > now - timedelta_days 30
            /\ chosen_user_id c = x.

(** [x] is in a selection of the subject dated after [now] minus 7 days. *)
Definition selected_recently (db : DB) (uid : Z) (now : datetime) (x : Z) : Prop :=
  exists s, In s (daily_selections db) /\ ds_user_id s = uid
            /\ selection_date s > now - timedelta_days 7
            /\ candidate_user_id s = x.

Definition has_coordinates (u : User) : Prop :=
  location_latitude u <> None /\ location_longitude u <> None.

(** The ranking as the specification words it: along the list the score
    decreases, or stays equal while the candidate id increases. *)
Fixpoint ranked_with_id_tie_break (l : list DailySelectionCandidate) : Prop :=
  match l with
  | [] => True
  | a :: l' =>
    match l' with
    | [] => True
    | b :: _ =>
      ((compatibility_score b <? compatibility_score a)%float = true
       \/ ((compatibility_score a =? compatibility_score b)%float = true
           /\ user_id a < user_id b))
      /\ ranked_with_id_tie_break l'
    end
  end.

(** Along the list no score is greater than the one before it. *)
Definition scores_non_increasing (l : list (User * float)) : Prop :=
  in_order (fun y x => (snd x <? snd y)%float) l.

(** The rows of [l] whose score is [s], in the order of [l]. *)
Definition with_score (s : float) (l : list (User * float)) : list (User * float) :=
  filter (fun p => PrimFloat.Leibniz.eqb (snd p) s) l.

(** ** Sample data used by the examples below *)

Module Sample.
Import String.
Open Scope string_scope.

Definition person (uid : Z) (name g : string) (years : Z) : User :=
  mkUser uid name years g "Paris" None None false true.

(** The ten answers of user [uid], questions 1 to 10. *)
Definition answers (uid : Z) (values : list Z) : list PersonalityResponse :=
  map (fun p => mkPersonalityResponse uid (fst p + 1) (snd p))
      (enumerate_from 0 values).

(** A vector of ten equal answers, as [_get_personality_vector] returns it. *)
Definition ten (x : float) : list float := repeat x 10.

Definition low_high : list Z := [1; 1; 1; 1; 1; 5; 5; 5; 5; 5].
Definition high_low : list Z := [5; 5; 5; 5; 5; 1; 1; 1; 1; 1].
Definition threes : list Z := repeat 3 10.

Definition alice := person 1 "Alice" "female" 25.
Definition bob := person 2 "Bob" "male" 27.
Definition carl := person 3 "Carl" "male" 24.
Definition dave := person 4 "Dave" "male" 30.

(** Alice and three eligible men whose answers are far from hers
    (cosine 50/130). *)
Definition db_far : DB :=
  mkDB [alice; bob; carl; dave]
       (answers 1 low_high ++ answers 2 high_low ++ answers 3 high_low
          ++ answers 4 high_low)
       [] [] [].

(** Alice and two men with her answers; the store returns Carl (id 3)
    before Bob (id 2). *)
Definition db_tie : DB :=
  mkDB [alice; carl; bob]
       (answers 1 threes ++ answers 2 threes ++ answers 3 threes)
       [] [] [].

(** Alice chose Bob 100 seconds into day 0. *)
Definition db_chosen : DB :=
  mkDB [alice; bob]
       (answers 1 threes ++ answers 2 threes)
       [] [mkUserChoice 1 2 100 false] [].

(** Alice lives on the equator; Bob has no coordinates. *)
Definition alice_equator : User :=
  mkUser 1 "Alice" 25 "female" "Kampala" (Some 0%float) (Some 32.5%float)
         false true.

Definition db_equator : DB :=
  mkDB [alice_equator; bob] [] [] [] [].

(** Day 10: Alice chose Bob five days ago and was shown Carl on day 8. *)
Definition db_history : DB :=
  mkDB [alice; bob; carl; dave]
       (answers 1 threes ++ answers 2 threes ++ answers 3 threes
          ++ answers 4 threes)
       [mkDailySelection 1 3 1%float (8 * 86400 + 43200) 1]
       [mkUserChoice 1 2 (5 * 86400) false] [].

(** Bob chose Alice 100 seconds into day 0. *)
Definition db_mutual : DB :=
  mkDB [alice; bob] [] [] [mkUserChoice 2 1 100 false] [].

Definition premium_alice : User :=
  mkUser 1 "Alice" 25 "female" "Paris" None None true true.

Definition db_standard : DB := mkDB [alice; bob; carl; dave] [] [] [] [].
Definition db_premium : DB :=
  mkDB [premium_alice; bob; carl; dave; person 5 "Eric" "male" 26] [] [] [] [].
End Sample.

(** ** More sample data *)

Module Scenario.
Import Sample.
Import String.
Open Scope string_scope.

(** Alice has answered nine questions only; Bob all ten. *)
Definition db_incomplete : DB :=
  mkDB [alice; bob]
       (answers 1 (repeat 3 9) ++ answers 2 threes)
       [] [] [].

(** The answers of [db_tie], stored in another order. *)
Definition db_tie_shuffled : DB :=
  mkDB [alice; carl; bob]
       (answers 3 threes ++ rev (answers 1 threes) ++ answers 2 threes)
       [] [] [].

(** Alice chose Bob and Carl on day 0, Dave on day 1. *)
Definition db_choices : DB :=
  mkDB [alice; bob; carl; dave] [] []
       [mkUserChoice 1 2 100 false; mkUserChoice 2 1 150 false;
        mkUserChoice 1 3 5000 false; mkUserChoice 1 4 90000 false] [].

(** Alice and six men with her answers. *)
Definition db_crowd : DB :=
  mkDB [alice; bob; carl; dave; person 5 "Eric" "male" 26;
        person 6 "Fred" "male" 28; person 7 "Gus" "male" 29]
       (answers 1 threes ++ answers 2 threes ++ answers 3 threes
          ++ answers 4 threes ++ answers 5 threes ++ answers 6 threes
          ++ answers 7 threes)
       [] [] [].

(** Alice and Bob both answered 1 to every question. *)
Definition db_ones : DB :=
  mkDB [alice; bob]
       (answers 1 (repeat 1 10) ++ answers 2 (repeat 1 10))
       [] [] [].

(** Ten answers, and the same vector as [_get_personality_vector] returns
    it. *)
Definition mixed : list Z := [3; 3; 4; 2; 4; 4; 5; 2; 4; 3].

Definition db_mixed : DB :=
  mkDB [alice; bob] (answers 1 mixed ++ answers 2 mixed) [] [] [].

(** Alice, premium, chooses Bob and Carl on day 0 and is then set back to
    standard. *)
Definition db_downgraded : DB :=
  snd (update_premium_status
         (snd (make_user_choice (snd (make_user_choice db_premium 1 2 1000))
                                1 3 2000))
         1 false).

(** Bob chooses Alice on day 0 and again on day 1. *)
Definition db_chosen_twice : DB :=
  snd (make_user_choice (snd (make_user_choice db_standard 2 1 100)) 2 1 90000).

(** Ten valid answers, questions 1 to 10. *)
Definition questionnaire : list PersonalityResponseCreate :=
  map (fun q => mkPersonalityResponseCreate q 3) [1; 2; 3; 4; 5; 6; 7; 8; 9; 10].
End Scenario.


(** ** The formula of [_cosine_similarity] in exact arithmetic

    The same three quantities over the real numbers, without rounding:
    what the binary64 result approximates. *)

Module Exact.
Definition dot (v1 v2 : list R) : R :=
  fold_left (fun acc p => (acc + fst p * snd p)%R) (combine v1 v2) 0%R.

Definition norm (v : list R) : R := sqrt (dot v v).

Definition cosine_similarity (vec1 vec2 : list R) : R :=
  if negb (length vec1 =? length vec2)%nat then 0%R
  else if Req_dec_T (norm vec1) 0 then 0%R
  else if Req_dec_T (norm vec2) 0 then 0%R
  else (dot vec1 vec2 / (norm vec1 * norm vec2))%R.
End Exact.

(** * Properties *)

(** ** Facts on binary64 numbers

    The specification of the primitive operations ([FloatAxioms]) relates
    each of them to its counterpart on [spec_float]. *)

Module FloatFacts.

Lemma SFmul_comm prec emax x y : SFmul prec emax x y = SFmul prec emax y x.
Proof.
  destruct x as [sx| sx| |sx mx ex], y as [sy| sy| |sy my ey]; simpl;
    try reflexivity; try (rewrite xorb_comm; reflexivity).
  rewrite xorb_comm, Pos.mul_comm, Z.add_comm. reflexivity.
Qed.

Lemma mul_comm (x y : float) : (x * y)%float = (y * x)%float.
Proof. apply Prim2SF_inj. rewrite !mul_spec. apply SFmul_comm. Qed.

Lemma SFcompare_antisym x y :
  SFcompare y x =
  match SFcompare x y with Some c => Some (CompOpp c) | None => None end.
Proof.
  destruct x as [sx| sx| |sx mx ex], y as [sy| sy| |sy my ey]; simpl;
    try reflexivity;
    try (destruct sx; reflexivity); try (destruct sy; reflexivity);
    try (destruct sx, sy; reflexivity).
  destruct sx, sy; try reflexivity;
    rewrite (Z.compare_antisym ex ey); destruct (ex ?= ey) eqn:E; simpl;
    try reflexivity;
    change (Pos.compare_cont Eq my mx) with (Pos.compare my mx);
    change (Pos.compare_cont Eq mx my) with (Pos.compare mx my);
    rewrite (Pos.compare_antisym mx my);
    destruct (Pos.compare mx my); reflexivity.
Qed.

Lemma ltb_asym (x y : float) : (x <? y)%float = true -> (y <? x)%float = false.
Proof.
  rewrite !ltb_spec. unfold SFltb.
  rewrite (SFcompare_antisym (Prim2SF x) (Prim2SF y)).
  destruct (SFcompare (Prim2SF x) (Prim2SF y)) as [[]|]; simpl; congruence.
Qed.

Lemma ltb_irrefl (x : float) : (x <? x)%float = false.
Proof.
  destruct (x <? x)%float eqn:E; [|reflexivity].
  now rewrite (ltb_asym E) in E.
Qed.

End FloatFacts.

(** ** Facts on the stable sort *)

Section StableSortFacts.
Variable A : Type.
Variable before : A -> A -> bool.

Lemma insert_sorted_perm (x : A) (l : list A) :
  Permutation (insert_sorted before x l) (x :: l).
Proof.
  induction l as [|y l IH]; simpl.
  - apply Permutation_refl.
  - destruct (before y x).
    + apply Permutation_trans with (y :: x :: l).
      * now apply perm_skip.
      * apply perm_swap.
    + apply Permutation_refl.
Qed.

Lemma stable_sort_perm (l : list A) : Permutation (stable_sort before l) l.
Proof.
  induction l as [|x l IH]; simpl.
  - apply perm_nil.
  - eapply Permutation_trans; [apply insert_sorted_perm|].
    now apply perm_skip.
Qed.

Lemma stable_sort_In (l : list A) (x : A) :
  In x (stable_sort before l) <-> In x l.
Proof.
  split; apply Permutation_in;
    [|apply Permutation_sym]; apply stable_sort_perm.
Qed.

Lemma stable_sort_length (l : list A) :
  length (stable_sort before l) = length l.
Proof. apply Permutation_length, stable_sort_perm. Qed.

(** A sorted list: no element sorts strictly before its predecessor. *)
Hypothesis before_asym : forall x y, before x y = true -> before y x = false.

Lemma insert_sorted_ordered (x : A) (l : list A) :
  in_order before l -> in_order before (insert_sorted before x l).
Proof.
  induction l as [|y l IH]; simpl; intros Hl.
  - exact I.
  - destruct (before y x) eqn:Hyx.
    + destruct l as [|z l]; simpl in *.
      * split; [now apply before_asym | exact I].
      * destruct Hl as [Hzy Hl].
        specialize (IH Hl).
        destruct (before z x) eqn:Hzx; simpl in *.
        -- split; assumption.
        -- split; [now apply before_asym | assumption].
    + split; assumption.
Qed.

Lemma stable_sort_ordered (l : list A) : in_order before (stable_sort before l).
Proof.
  induction l as [|x l IH]; simpl.
  - exact I.
  - now apply insert_sorted_ordered.
Qed.

(** Stability: the members of a class [p] whose elements never sort strictly
    before one another come out in the order they went in. *)
Variable p : A -> bool.
Hypothesis p_tied : forall x y, p x = true -> p y = true -> before y x = false.

Lemma insert_sorted_filter (x : A) (l : list A) :
  filter p (insert_sorted before x l) = filter p (x :: l).
Proof.
  induction l as [|y l IH]; [reflexivity|].
  simpl insert_sorted. destruct (before y x) eqn:Hyx; [|reflexivity].
  simpl in *. rewrite IH.
  destruct (p x) eqn:Hx, (p y) eqn:Hy; try reflexivity.
  now rewrite (p_tied Hx Hy) in Hyx.
Qed.

Lemma stable_sort_filter (l : list A) :
  filter p (stable_sort before l) = filter p l.
Proof.
  induction l as [|x l IH]; [reflexivity|].
  simpl stable_sort. rewrite insert_sorted_filter. simpl. now rewrite IH.
Qed.

End StableSortFacts.

(** ** Cosine similarity *)

Module ExactFacts.
Import Exact.
Open Scope R_scope.

Lemma fold_dot_acc (v1 v2 : list R) (a : R) :
  fold_left (fun acc p => acc + fst p * snd p) (combine v1 v2) a
  = a + dot v1 v2.
Proof.
  unfold dot. revert v2 a.
  induction v1 as [|x v1 IH]; intros [|y v2] a; simpl; try lra.
  rewrite (IH v2 (a + x * y)), (IH v2 (0 + x * y)). lra.
Qed.

Lemma dot_cons (x y : R) (v1 v2 : list R) :
  dot (x :: v1) (y :: v2) = x * y + dot v1 v2.
Proof. unfold dot at 1. simpl. rewrite fold_dot_acc. lra. Qed.

Lemma dot_self_nonneg (v : list R) : 0 <= dot v v.
Proof.
  induction v as [|x v IH].
  - unfold dot. simpl. lra.
  - rewrite dot_cons. pose proof (Rle_0_sqr x) as H. unfold Rsqr in H. lra.
Qed.

Lemma dot_scale_r (k : R) (v1 v2 : list R) :
  dot v1 (map (Rmult k) v2) = k * dot v1 v2.
Proof.
  revert v2. induction v1 as [|x v1 IH]; intros [|y v2]; simpl map;
    try (unfold dot; simpl; lra).
  rewrite !dot_cons, IH. lra.
Qed.

Lemma dot_scale_l (k : R) (v1 v2 : list R) :
  dot (map (Rmult k) v1) v2 = k * dot v1 v2.
Proof.
  revert v2. induction v1 as [|x v1 IH]; intros [|y v2]; simpl map;
    try (unfold dot; simpl; lra).
  rewrite !dot_cons, IH. lra.
Qed.

Lemma norm_sqr (v : list R) : norm v * norm v = dot v v.
Proof. unfold norm. apply sqrt_sqrt, dot_self_nonneg. Qed.

Lemma norm_scale (k : R) (v : list R) :
  0 < k -> norm (map (Rmult k) v) = k * norm v.
Proof.
  intros Hk. unfold norm. rewrite dot_scale_l, dot_scale_r.
  replace (k * (k * dot v v)) with (k * k * dot v v) by lra.
  rewrite sqrt_mult_alt by nra.
  fold (Rsqr k). rewrite sqrt_Rsqr by lra. reflexivity.
Qed.

Lemma positive_norm (v : list R) :
  v <> [] -> Forall (Rlt 0) v -> norm v <> 0.
Proof.
  intros Hne Hpos. destruct v as [|x v]; [congruence|].
  inversion Hpos as [|? ? Hx _]; subst.
  intros Hn. pose proof (norm_sqr (x :: v)) as Hs.
  rewrite Hn, dot_cons in Hs.
  pose proof (dot_self_nonneg v). nra.
Qed.

Lemma identical (v : list R) : norm v <> 0 -> cosine_similarity v v = 1.
Proof.
  intros Hn. unfold cosine_similarity.
  rewrite Nat.eqb_refl. simpl.
  destruct (Req_dec_T (norm v) 0) as [E|_]; [contradiction|].
  rewrite norm_sqr. apply Rdiv_diag.
  intros E. rewrite <- norm_sqr in E. apply Rmult_integral in E. tauto.
Qed.

Lemma proportional (k : R) (v : list R) :
  0 < k -> norm v <> 0 -> cosine_similarity v (map (Rmult k) v) = 1.
Proof.
  intros Hk Hn. unfold cosine_similarity.
  rewrite length_map, Nat.eqb_refl. simpl.
  destruct (Req_dec_T (norm v) 0) as [E|_]; [contradiction|].
  rewrite norm_scale by assumption.
  destruct (Req_dec_T (k * norm v) 0) as [E|_]; [nra|].
  rewrite dot_scale_r.
  replace (norm v * (k * norm v)) with (k * (norm v * norm v)) by lra.
  rewrite norm_sqr. apply Rdiv_diag.
  intros E. apply Rmult_integral in E. destruct E as [E|E]; [lra|].
  rewrite <- norm_sqr in E. apply Rmult_integral in E. tauto.
Qed.

End ExactFacts.

Lemma cosine_length_mismatch (v1 v2 : list float) :
  length v1 <> length v2 -> _cosine_similarity v1 v2 = 0%float.
Proof.
  intros H. unfold _cosine_similarity.
  destruct (Nat.eqb_spec (length v1) (length v2)); [contradiction|reflexivity].
Qed.

Lemma cosine_zero_norm (v1 v2 : list float) :
  (norm v1 =? 0)%float = true \/ (norm v2 =? 0)%float = true ->
  _cosine_similarity v1 v2 = 0%float.
Proof.
  intros H. unfold _cosine_similarity.
  destruct (negb (length v1 =? length v2)%nat); [reflexivity|].
  destruct H as [-> | ->]; [reflexivity|].
  now rewrite orb_true_r.
Qed.

Lemma cosine_quotient (v1 v2 : list float) :
  length v1 = length v2 ->
  (norm v1 =? 0)%float = false -> (norm v2 =? 0)%float = false ->
  _cosine_similarity v1 v2 = (dot v1 v2 / (norm v1 * norm v2))%float.
Proof.
  intros Hlen H1 H2. unfold _cosine_similarity.
  rewrite Hlen, Nat.eqb_refl, H1, H2. reflexivity.
Qed.

(** The value on two users who both answered 1 to the ten questions, once
    every operation has rounded ([sqrt 10 * sqrt 10] is
    [10.000000000000002]): the largest double below 1. *)
Example cosine_ten_ones :
  _cosine_similarity (Sample.ten 1) (Sample.ten 1) = 0x1.ffffffffffffep-1%float.
Proof. vm_compute. reflexivity. Qed.

Example cosine_pair_of_ones :
  _cosine_similarity [1%float; 1%float] [1%float; 1%float]
  = 0x1.ffffffffffffep-1%float.
Proof. vm_compute. reflexivity. Qed.

(** The opposite vectors of the repository's own test: not -1.0. *)
Example cosine_opposite :
  _cosine_similarity [1%float; 1%float; 1%float]
                     [(-1)%float; (-1)%float; (-1)%float]
  = (-0x1.0000000000001p+0)%float.
Proof. vm_compute. reflexivity. Qed.

(** Identical nonzero vectors, and strictly positive proportional ones,
    score 1 when the formula is evaluated in exact real arithmetic. *)
Lemma exact_cosine_is_one :
  (forall v, Exact.norm v <> 0%R -> Exact.cosine_similarity v v = 1%R)
  /\ (forall k v,
        (0 < k)%R -> v <> [] -> Forall (Rlt 0) v ->
        Exact.cosine_similarity v (map (Rmult k) v) = 1%R).
Proof.
  split; [exact ExactFacts.identical|].
  intros k v Hk Hne Hpos.
  apply ExactFacts.proportional; [assumption|].
  now apply ExactFacts.positive_norm.
Qed.

(** C2: the score is 0.0 when the lengths differ or a norm is zero, and
    otherwise the quotient of the dot product by the product of the norms;
    ten 3's against ten 3's and ten 1's against ten 5's score exactly 1.0.
    But every operation of the quotient rounds, and identical vectors do not
    score 1.0 in general: two users who both answered 1 to the ten
    questions score 0.9999999999999998, two who both answered
    3, 3, 4, 2, 4, 4, 5, 2, 4, 3 score 1.0000000000000002. *)
Theorem cosine_similarity_rounds :
  (forall v1 v2, length v1 <> length v2 -> _cosine_similarity v1 v2 = 0%float)
  /\ (forall v1 v2,
        (norm v1 =? 0)%float = true \/ (norm v2 =? 0)%float = true ->
        _cosine_similarity v1 v2 = 0%float)
  /\ (forall v1 v2,
        length v1 = length v2 ->
        (norm v1 =? 0)%float = false -> (norm v2 =? 0)%float = false ->
        _cosine_similarity v1 v2 = (dot v1 v2 / (norm v1 * norm v2))%float)
  /\ _cosine_similarity (Sample.ten 3) (Sample.ten 3) = 1%float
  /\ _cosine_similarity (Sample.ten 1) (Sample.ten 5) = 1%float
  /\ _get_personality_vector Scenario.db_ones 1 = Some (Sample.ten 1)
  /\ _get_personality_vector Scenario.db_ones 2 = Some (Sample.ten 1)
  /\ _cosine_similarity (Sample.ten 1) (Sample.ten 1)
     = 0x1.ffffffffffffep-1%float
  /\ _cosine_similarity (Sample.ten 1) (Sample.ten 1) <> 1%float
  /\ fst (calculate_compatibility_score Scenario.db_ones 1 2 1000)
     = 0x1.ffffffffffffep-1%float
  /\ fst (calculate_compatibility_score Scenario.db_mixed 1 2 1000)
     = 0x1.0000000000001p+0%float
  /\ PrimFloat.ltb 1%float
       (fst (calculate_compatibility_score Scenario.db_mixed 1 2 1000))
     = true.
Proof.
  split; [exact cosine_length_mismatch|].
  split; [exact cosine_zero_norm|].
  split; [exact cosine_quotient|].
  split; [vm_compute; reflexivity|].
  split; [vm_compute; reflexivity|].
  split; [vm_compute; reflexivity|].
  split; [vm_compute; reflexivity|].
  split; [vm_compute; reflexivity|].
  split.
  { intros H. apply (f_equal (fun x => (x =? 1)%float)) in H.
    vm_compute in H. discriminate H. }
  split; [vm_compute; reflexivity|].
  split; vm_compute; reflexivity.
Qed.

(** ** Symmetry of the score and the canonical cache key *)

Lemma ordered_comm (a b : Z) : ordered a b = ordered b a.
Proof.
  unfold ordered.
  destruct (Z.gtb_spec a b), (Z.gtb_spec b a); try reflexivity; try lia.
  f_equal; lia.
Qed.

Lemma ordered_le (a b : Z) : fst (ordered a b) <= snd (ordered a b).
Proof. unfold ordered. destruct (Z.gtb_spec a b); simpl; lia. Qed.

Lemma ordered_cases (a b : Z) :
  ordered a b = (a, b) /\ a <= b \/ ordered a b = (b, a) /\ b < a.
Proof. unfold ordered. destruct (Z.gtb_spec a b); [right|left]; split; auto; lia. Qed.

Lemma get_cached_comm (db : DB) (a b : Z) (now : datetime) :
  _get_cached_compatibility db a b now = _get_cached_compatibility db b a now.
Proof. unfold _get_cached_compatibility. now rewrite (ordered_comm a b). Qed.

Lemma cache_compatibility_comm (db : DB) (a b : Z) (s : float) (now : datetime) :
  _cache_compatibility db a b s now = _cache_compatibility db b a s now.
Proof. unfold _cache_compatibility. now rewrite (ordered_comm a b). Qed.

Lemma fold_dot_comm (v1 v2 : list float) (acc : float) :
  fold_left (fun acc p => (acc + fst p * snd p)%float) (combine v1 v2) acc
  = fold_left (fun acc p => (acc + fst p * snd p)%float) (combine v2 v1) acc.
Proof.
  revert v2 acc.
  induction v1 as [|x v1 IH]; intros [|y v2] acc; simpl; try reflexivity.
  rewrite (FloatFacts.mul_comm x y). apply IH.
Qed.

Lemma dot_comm (v1 v2 : list float) : dot v1 v2 = dot v2 v1.
Proof. apply fold_dot_comm. Qed.

Lemma cosine_similarity_comm (v1 v2 : list float) :
  _cosine_similarity v1 v2 = _cosine_similarity v2 v1.
Proof.
  unfold _cosine_similarity.
  rewrite (Nat.eqb_sym (length v1)), (dot_comm v1 v2),
    (orb_comm (norm v1 =? 0)%float), (FloatFacts.mul_comm (norm v1)).
  reflexivity.
Qed.

Lemma calculate_compatibility_score_comm (db : DB) (a b : Z) (now : datetime) :
  calculate_compatibility_score db a b now
  = calculate_compatibility_score db b a now.
Proof.
  unfold calculate_compatibility_score.
  rewrite (get_cached_comm db a b).
  destruct (_get_cached_compatibility db b a now); [reflexivity|].
  rewrite (orb_comm (falsy_vector (_get_personality_vector db a))).
  destruct (falsy_vector (_get_personality_vector db b)
            || falsy_vector (_get_personality_vector db a)); [reflexivity|].
  destruct (_get_personality_vector db a) as [va|],
           (_get_personality_vector db b) as [vb|]; try reflexivity.
  now rewrite (cosine_similarity_comm va vb), (cache_compatibility_comm db a b).
Qed.

(** The paths through [calculate_compatibility_score]: a cache hit, a missing
    vector, and the computation that fills the cache. *)
Ltac score_cases db a b now :=
  unfold calculate_compatibility_score;
  destruct (_get_cached_compatibility db a b now);
  [| destruct (falsy_vector (_get_personality_vector db a)
               || falsy_vector (_get_personality_vector db b));
     [| destruct (_get_personality_vector db a),
                 (_get_personality_vector db b)]].

Lemma filter_filter_length {A} (p q : A -> bool) (l : list A) :
  (length (filter p (filter q l)) <= length (filter p l))%nat.
Proof.
  induction l as [|x l IH]; simpl; [lia|].
  destruct (q x); simpl; destruct (p x); simpl; lia.
Qed.

Lemma filter_none {A} (p : A -> bool) (l : list A) :
  (forall x, In x l -> p x = false) -> filter p l = [].
Proof.
  induction l as [|x l IH]; simpl; intros H; [reflexivity|].
  rewrite (H x (or_introl eq_refl)). apply IH. intros y Hy. apply H. now right.
Qed.

Lemma cache_compatibility_canonical
    (db : DB) (a b : Z) (s : float) (now : datetime) :
  canonical_cache (compatibility_cache db) ->
  canonical_cache (compatibility_cache (_cache_compatibility db a b s now)).
Proof.
  intros [Hcan Hone].
  unfold _cache_compatibility, CompatibilityCache__init__.
  pose proof (ordered_le a b) as Hle.
  destruct (ordered a b) as [lo hi]; simpl in Hle.
  destruct (Z.gtb_spec lo hi) as [Hgt|_]; [lia|].
  simpl. split.
  - intros c Hc. apply in_app_or in Hc. destruct Hc as [Hc|[<-|[]]].
    + apply filter_In in Hc. now apply Hcan.
    + simpl. lia.
  - intros x y. unfold rows_of_pair. rewrite filter_app, length_app.
    cbn [filter user1_id user2_id].
    destruct (((lo =? x) && (hi =? y)) || ((lo =? y) && (hi =? x))) eqn:Hnew.
    + rewrite filter_none; [simpl; lia|].
      intros c Hc. apply filter_In in Hc. destruct Hc as [Hc Hkey].
      specialize (Hcan c Hc).
      apply negb_true_iff in Hkey.
      destruct (Z.eqb_spec (user1_id c) lo), (Z.eqb_spec (user2_id c) hi);
        simpl in Hkey; try discriminate;
        destruct (Z.eqb_spec lo x), (Z.eqb_spec hi y),
                 (Z.eqb_spec lo y), (Z.eqb_spec hi x);
        simpl in Hnew; try discriminate;
        destruct (Z.eqb_spec (user1_id c) x), (Z.eqb_spec (user2_id c) y),
                 (Z.eqb_spec (user1_id c) y), (Z.eqb_spec (user2_id c) x);
        simpl; try reflexivity; lia.
    + simpl. rewrite Nat.add_0_r.
      eapply Nat.le_trans; [apply filter_filter_length|apply Hone].
Qed.

Lemma calculate_compatibility_score_canonical
    (db : DB) (a b : Z) (now : datetime) :
  canonical_cache (compatibility_cache db) ->
  canonical_cache
    (compatibility_cache (snd (calculate_compatibility_score db a b now))).
Proof.
  intros H. score_cases db a b now; try exact H.
  now apply cache_compatibility_canonical.
Qed.

Lemma run_cache_op_canonical (db : DB) (op : CacheOp) :
  canonical_cache (compatibility_cache db) ->
  canonical_cache (compatibility_cache (run_cache_op db op)).
Proof.
  intros H. destruct op as [u1 u2 now|u1 u2 s now|u1 u2 now]; simpl.
  - now destruct (_get_cached_compatibility db u1 u2 now).
  - now apply cache_compatibility_canonical.
  - now apply calculate_compatibility_score_canonical.
Qed.

Lemma run_cache_ops_canonical (ops : list CacheOp) (db : DB) :
  canonical_cache (compatibility_cache db) ->
  canonical_cache (compatibility_cache (run_cache_ops db ops)).
Proof.
  revert db. induction ops as [|op ops IH]; intros db H; simpl; [exact H|].
  apply IH. now apply run_cache_op_canonical.
Qed.

Lemma empty_cache_canonical : canonical_cache [].
Proof. split; [intros c []|intros a b; simpl; lia]. Qed.

(** Writing the pair as (2, 1) and then as (1, 2) leaves one row, keyed
    (1, 2). *)
Example cache_either_order :
  map (fun c => (user1_id c, user2_id c))
      (compatibility_cache
         (run_cache_ops (mkDB [] [] [] [] [])
            [CachePut 2 1 1%float 10; CachePut 1 2 1%float 20]))
  = [(1, 2)].
Proof. reflexivity. Qed.

(** C3: the score of (a, b) is the score of (b, a), and so is the state the
    computation leaves; and a cache in which every row is keyed
    (min, max) and no unordered pair has two rows (the empty cache, for one)
    stays so after any sequence of reads, writes and score computations,
    whatever the order of the two ids in each call. *)
Theorem score_symmetric_cache_canonical :
  (forall db a b now,
      calculate_compatibility_score db a b now
      = calculate_compatibility_score db b a now)
  /\ (forall db ops,
        canonical_cache (compatibility_cache db) ->
        canonical_cache (compatibility_cache (run_cache_ops db ops)))
  /\ (forall us prs sels chs ops,
        canonical_cache
          (compatibility_cache (run_cache_ops (mkDB us prs sels chs []) ops))).
Proof.
  split; [exact calculate_compatibility_score_comm|].
  split.
  - intros db ops. apply run_cache_ops_canonical.
  - intros us prs sels chs ops.
    apply run_cache_ops_canonical. exact empty_cache_canonical.
Qed.

(** ** Exclusions and eligibility *)

Lemma mem_In (x : Z) (l : list Z) : mem x l = true <-> In x l.
Proof.
  unfold mem. rewrite existsb_exists. split.
  - intros [y [Hy E]]. apply Z.eqb_eq in E. now subst.
  - intros H. exists x. split; [assumption|apply Z.eqb_refl].
Qed.

Lemma excluded_ids_In (db : DB) (uid : Z) (now : datetime) (x : Z) :
  In x (_get_excluded_user_ids db uid now)
  <-> x = uid \/ chosen_recently db uid now x \/ selected_recently db uid now x.
Proof.
  unfold _get_excluded_user_ids, chosen_recently, selected_recently.
  rewrite nodup_In, !in_app_iff, !in_map_iff. simpl.
  split.
  - intros [[[<-|[]]|[c [E Hc]]]|[s [E Hs]]].
    + now left.
    + right; left. apply filter_In in Hc. destruct Hc as [Hc Hp].
      apply andb_true_iff in Hp. destruct Hp as [H1 H2].
      exists c. repeat split; auto; lia.
    + right; right. apply filter_In in Hs. destruct Hs as [Hs Hp].
      apply andb_true_iff in Hp. destruct Hp as [H1 H2].
      exists s. repeat split; auto; lia.
  - intros [->|[[c (Hc & H1 & H2 & H3)]|[s (Hs & H1 & H2 & H3)]]].
    + left; left; now left.
    + left; right. exists c. split; [assumption|].
      apply filter_In. split; [assumption|].
      apply andb_true_iff. split; lia.
    + right. exists s. split; [assumption|].
      apply filter_In. split; [assumption|].
      apply andb_true_iff. split; lia.
Qed.

Lemma In_firstn {A} (n : nat) (l : list A) (x : A) : In x (firstn n l) -> In x l.
Proof.
  revert l. induction n as [|n IH]; intros [|y l]; simpl; try tauto.
  intros [->|H]; [now left|right; now apply IH].
Qed.

(** What the eligibility query guarantees of every row it returns.  The
    coordinate filter applies when both coordinates of the subject are
    true in Python's sense (present and nonzero). *)
Lemma potential_candidates_eligible
    (db : DB) (user : User) (excluded_ids : list Z) (c : User) :
  In c (_get_potential_candidates db user excluded_ids) ->
  In c (users db)
  /\ ~ In (id c) excluded_ids
  /\ is_active c = true
  /\ gender c <> gender user
  /\ Z.abs (age c - age user) <= 10
  /\ (truthy_float (location_latitude user)
      && truthy_float (location_longitude user) = true -> has_coordinates c).
Proof.
  unfold _get_potential_candidates. intros H. apply In_firstn in H.
  assert (Hbase :
    In c (filter (fun u => negb (mem (id u) excluded_ids) && is_active u
                           && negb (String.eqb (gender u) (gender user))
                           && (Z.abs (age u - age user) <=? 10)) (users db))
    /\ (truthy_float (location_latitude user)
        && truthy_float (location_longitude user) = true -> has_coordinates c)).
  { destruct (truthy_float (location_latitude user)
              && truthy_float (location_longitude user)).
    - apply filter_In in H. destruct H as [H Hc]. split; [assumption|].
      intros _. unfold has_coordinates.
      destruct (location_latitude c), (location_longitude c);
        try discriminate; split; discriminate.
    - split; [assumption|discriminate]. }
  destruct Hbase as [Hin Hcoord].
  apply filter_In in Hin. destruct Hin as [Hin Hp].
  repeat (apply andb_true_iff in Hp; destruct Hp as [Hp ?]).
  refine (conj Hin (conj _ (conj _ (conj _ (conj _ Hcoord))))).
  - apply negb_true_iff in Hp. intros Hmem. apply mem_In in Hmem. congruence.
  - assumption.
  - intros E. rewrite E, String.eqb_refl in *. discriminate.
  - lia.
Qed.

Lemma potential_candidates_length
    (db : DB) (user : User) (excluded_ids : list Z) :
  (length (_get_potential_candidates db user excluded_ids) <= 50)%nat.
Proof. unfold _get_potential_candidates. apply firstn_le_length. Qed.

(** ** The scoring loop *)

Lemma same_tables_refl (db : DB) : same_tables db db.
Proof. now repeat split. Qed.

Lemma same_tables_trans (db1 db2 db3 : DB) :
  same_tables db1 db2 -> same_tables db2 db3 -> same_tables db1 db3.
Proof.
  intros (A1 & A2 & A3 & A4) (B1 & B2 & B3 & B4).
  repeat split; congruence.
Qed.

Lemma cache_compatibility_tables
    (db : DB) (a b : Z) (s : float) (now : datetime) :
  same_tables db (_cache_compatibility db a b s now).
Proof.
  unfold _cache_compatibility. destruct (ordered a b). now repeat split.
Qed.

Lemma calculate_compatibility_score_tables (db : DB) (a b : Z) (now : datetime) :
  same_tables db (snd (calculate_compatibility_score db a b now)).
Proof.
  score_cases db a b now; try apply same_tables_refl.
  apply cache_compatibility_tables.
Qed.

Lemma subseq_nil_l {A} (l : list A) : subseq [] l.
Proof. induction l; constructor; assumption. Qed.

Lemma subseq_In {A} (l1 l2 : list A) (x : A) :
  subseq l1 l2 -> In x l1 -> In x l2.
Proof.
  induction 1 as [|y l1 l2 _ IH|y l1 l2 _ IH]; simpl; intros H; auto.
  destruct H as [->|H]; auto.
Qed.

(** The loop keeps the rows it was given, appends candidates in the order
    of the query, keeps those only whose score reaches the threshold, and
    writes to the cache table alone. *)
Lemma score_candidates_spec
    (candidates : list User) (db : DB) (uid : Z) (now : datetime)
    (acc : list (User * float)) :
  exists added,
    fst (score_candidates db uid candidates now acc) = acc ++ added
    /\ subseq (map fst added) candidates
    /\ Forall (fun p => reaches_threshold (snd p) = true) added
    /\ same_tables db (snd (score_candidates db uid candidates now acc)).
Proof.
  revert db acc.
  induction candidates as [|c rest IH]; intros db acc; simpl.
  - exists []. rewrite app_nil_r.
    split; [reflexivity|].
    split; [constructor|].
    split; [constructor|apply same_tables_refl].
  - pose proof (calculate_compatibility_score_tables db uid (id c) now) as Ht.
    destruct (calculate_compatibility_score db uid (id c) now) as [score db'].
    simpl in Ht.
    destruct (settings.COMPATIBILITY_THRESHOLD <=? score)%float eqn:Hthr.
    + destruct (IH db' (acc ++ [(c, score)])) as (added & E & Hs & Hf & Hsame).
      exists ((c, score) :: added).
      rewrite E, <- app_assoc. simpl.
      split; [reflexivity|].
      split; [now constructor|].
      split; [now constructor|].
      now apply same_tables_trans with db'.
    + destruct (IH db' acc) as (added & E & Hs & Hf & Hsame).
      exists added.
      split; [assumption|].
      split; [now constructor|].
      split; [assumption|].
      now apply same_tables_trans with db'.
Qed.

(** ** Daily selection *)

(** The fallback to [MIN_DAILY_PROFILES] never fires: the list it would draw
    from is the thresholded list the first five were taken from. *)
Lemma min_fallback_unreachable {A} (l : list A) :
  (length (firstn settings.MAX_DAILY_PROFILES l) <? settings.MIN_DAILY_PROFILES)%nat
  && (settings.MIN_DAILY_PROFILES <=? length l)%nat = false.
Proof.
  rewrite length_firstn. unfold settings.MAX_DAILY_PROFILES, settings.MIN_DAILY_PROFILES.
  destruct (Nat.ltb_spec (Nat.min 5 (length l)) 3),
           (Nat.leb_spec 3 (length l)); try reflexivity; lia.
Qed.

(** The candidates of [generate_daily_selection] before ranking. *)
Lemma generate_daily_selection_eq (db : DB) (uid : Z) (now : datetime) (user : User) :
  get_user db uid = Some user ->
  fst (generate_daily_selection db uid now)
  = map to_candidate
      (enumerate_from 0
         (firstn settings.MAX_DAILY_PROFILES
            (sort_by_score
               (fst (score_candidates db uid
                       (_get_potential_candidates db user
                          (_get_excluded_user_ids db uid now))
                       now []))))).
Proof.
  intros Hu. unfold generate_daily_selection. rewrite Hu.
  destruct (score_candidates db uid _ now []) as [scored db1]. cbn [fst].
  now rewrite min_fallback_unreachable.
Qed.

Lemma enumerate_from_In {A} (l : list A) (i k : Z) (x : A) :
  In (k, x) (enumerate_from i l) -> In x l.
Proof.
  revert i. induction l as [|y l IH]; simpl; intros i; [tauto|].
  intros [E|H]; [left; congruence|right; now apply (IH (i + 1))].
Qed.

Lemma generate_daily_selection_In
    (db : DB) (uid : Z) (now : datetime) (c : DailySelectionCandidate) :
  In c (fst (generate_daily_selection db uid now)) ->
  exists user candidate,
    get_user db uid = Some user
    /\ In candidate (_get_potential_candidates db user
                       (_get_excluded_user_ids db uid now))
    /\ user_id c = id candidate
    /\ reaches_threshold (compatibility_score c) = true.
Proof.
  intros H.
  destruct (get_user db uid) as [user|] eqn:Hu.
  - rewrite (generate_daily_selection_eq db uid now Hu) in H.
    apply in_map_iff in H. destruct H as [[k [candidate score]] [<- H]].
    apply enumerate_from_In, In_firstn in H.
    apply stable_sort_In in H.
    destruct (score_candidates_spec
                (_get_potential_candidates db user (_get_excluded_user_ids db uid now))
                db uid now []) as (added & E & Hsub & Hthr & _).
    rewrite E in H. simpl in H.
    exists user, candidate. split; [reflexivity|]. split.
    + eapply subseq_In; [exact Hsub|].
      apply in_map_iff. now exists (candidate, score).
    + split; [reflexivity|].
      rewrite Forall_forall in Hthr. apply (Hthr _ H).
  - unfold generate_daily_selection in H. rewrite Hu in H. destruct H.
Qed.

(** Every candidate of a generated selection scores at least the threshold. *)
Lemma daily_selection_reaches_threshold
    (db : DB) (uid : Z) (now : datetime) (c : DailySelectionCandidate) :
  In c (fst (generate_daily_selection db uid now)) ->
  reaches_threshold (compatibility_score c) = true.
Proof.
  intros H. apply generate_daily_selection_In in H.
  now destruct H as (user & candidate & _ & _ & _ & H).
Qed.

Lemma daily_selection_length (db : DB) (uid : Z) (now : datetime) :
  (length (fst (generate_daily_selection db uid now)) <= 5)%nat.
Proof.
  destruct (get_user db uid) as [user|] eqn:Hu.
  - rewrite (generate_daily_selection_eq db uid now Hu), length_map.
    assert (Hen : forall A (l : list A) i, length (enumerate_from i l) = length l).
    { intros A l. induction l as [|x l IH]; simpl; intros i; [reflexivity|].
      now rewrite IH. }
    rewrite Hen. apply firstn_le_length.
  - unfold generate_daily_selection. rewrite Hu. simpl. lia.
Qed.

(** C1: the fallback to the top [MIN_DAILY_PROFILES] of the scored list never
    fires, and no candidate below the threshold is ever returned.  On the
    sample, three eligible candidates score 50/130, below the threshold; the
    selection that is generated is empty, where the claim returns the three
    of them. *)
Theorem min_profiles_fallback_missing :
  (forall scored : list (User * float),
      (length (firstn settings.MAX_DAILY_PROFILES scored)
         <? settings.MIN_DAILY_PROFILES)%nat
      && (settings.MIN_DAILY_PROFILES <=? length scored)%nat = false)
  /\ (forall db uid now c,
        In c (fst (generate_daily_selection db uid now)) ->
        reaches_threshold (compatibility_score c) = true)
  /\ map id (_get_potential_candidates Sample.db_far Sample.alice
               (_get_excluded_user_ids Sample.db_far 1 1000)) = [2; 3; 4]
  /\ map (fun c => fst (calculate_compatibility_score Sample.db_far 1 c 1000))
         [2; 3; 4]
     = [0x1.89d89d89d89d9p-2%float; 0x1.89d89d89d89d9p-2%float;
        0x1.89d89d89d89d9p-2%float]
  /\ reaches_threshold 0x1.89d89d89d89d9p-2%float = false
  /\ fst (generate_daily_selection Sample.db_far 1 1000) = [].
Proof.
  split; [intros scored; apply min_fallback_unreachable|].
  split; [exact daily_selection_reaches_threshold|].
  vm_compute. repeat split; reflexivity.
Qed.

(** A generated selection holds neither the subject, nor a user the subject
    chose after [now] minus 30 days, nor a candidate of a stored selection
    row of the subject dated after [now] minus 7 days. *)
Theorem daily_selection_excludes_recent
    (db : DB) (uid : Z) (now : datetime) (c : DailySelectionCandidate) :
  In c (fst (generate_daily_selection db uid now)) ->
  user_id c <> uid
  /\ ~ chosen_recently db uid now (user_id c)
  /\ ~ selected_recently db uid now (user_id c).
Proof.
  intros H. apply generate_daily_selection_In in H.
  destruct H as (user & candidate & _ & Hc & -> & _).
  apply potential_candidates_eligible in Hc.
  destruct Hc as (_ & Hex & _).
  rewrite excluded_ids_In in Hex. tauto.
Qed.

(** On day 10 Alice, who chose Bob on day 5 and was shown Carl on day 8, is
    offered Dave alone. *)
Example daily_selection_with_history :
  map user_id (fst (generate_daily_selection Sample.db_history 1 864000)) = [4]
  /\ chosen_recently Sample.db_history 1 864000 2
  /\ selected_recently Sample.db_history 1 864000 3.
Proof.
  split; [vm_compute; reflexivity|]. split.
  - exists (mkUserChoice 1 2 (5 * 86400) false).
    repeat split; now left.
  - exists (mkDailySelection 1 3 1%float (8 * 86400 + 43200) 1).
    repeat split; now left.
Qed.

Lemma daily_selection_excludes_recent_witness :
  In (mkDailySelectionCandidate 4 (first_name Sample.dave) 30
        (location_city Sample.dave) 1%float 1)
     (fst (generate_daily_selection Sample.db_history 1 864000))
  /\ 4 <> 1
  /\ ~ chosen_recently Sample.db_history 1 864000 4
  /\ ~ selected_recently Sample.db_history 1 864000 4.
Proof.
  assert (H : In (mkDailySelectionCandidate 4 (first_name Sample.dave) 30
                    (location_city Sample.dave) 1%float 1)
                 (fst (generate_daily_selection Sample.db_history 1 864000))).
  { vm_compute. left. reflexivity. }
  split; [exact H|].
  exact (daily_selection_excludes_recent Sample.db_history 1 864000 _ H).
Defined.


(** C9: every row the eligibility query returns is an active user outside
    the exclusion set, of another gender than the subject and at most ten
    years older or younger, and at most 50 rows are returned; but the
    coordinate filter applies only when both coordinates of the subject are
    nonzero.  On the sample the subject's latitude is 0.0, which Python's
    [if] takes for false: the filter is skipped and a candidate without
    coordinates is returned to a subject who has coordinates. *)
Theorem coordinate_filter_skipped_at_zero :
  (forall db user excluded_ids c,
      In c (_get_potential_candidates db user excluded_ids) ->
      In c (users db)
      /\ ~ In (id c) excluded_ids
      /\ is_active c = true
      /\ gender c <> gender user
      /\ Z.abs (age c - age user) <= 10
      /\ (truthy_float (location_latitude user)
          && truthy_float (location_longitude user) = true ->
          has_coordinates c))
  /\ (forall db user excluded_ids,
        (length (_get_potential_candidates db user excluded_ids) <= 50)%nat)
  /\ location_latitude Sample.alice_equator = Some 0%float
  /\ location_longitude Sample.alice_equator = Some 32.5%float
  /\ _get_potential_candidates Sample.db_equator Sample.alice_equator
       (_get_excluded_user_ids Sample.db_equator 1 1000) = [Sample.bob]
  /\ location_latitude Sample.bob = None
  /\ location_longitude Sample.bob = None.
Proof.
  split; [exact potential_candidates_eligible|].
  split; [exact potential_candidates_length|].
  vm_compute. repeat split; reflexivity.
Qed.

(** ** Ranking *)

Lemma sort_by_score_perm (l : list (User * float)) :
  Permutation (sort_by_score l) l.
Proof. apply stable_sort_perm. Qed.

Lemma sort_by_score_non_increasing (l : list (User * float)) :
  scores_non_increasing (sort_by_score l).
Proof.
  apply stable_sort_ordered.
  intros x y. apply FloatFacts.ltb_asym.
Qed.

Lemma sort_by_score_stable (s : float) (l : list (User * float)) :
  with_score s (sort_by_score l) = with_score s l.
Proof.
  apply stable_sort_filter.
  intros x y Hx Hy.
  apply FloatAxioms.Leibniz.eqb_spec in Hx, Hy.
  rewrite Hx, Hy. apply FloatFacts.ltb_irrefl.
Qed.

(** C8, as stated, fails: Carl (id 3) and Bob (id 2) both score 1.0, the
    store returns Carl first, and the selection ranks Carl first. *)
Lemma ranking_has_no_id_tie_break :
  ~ ranked_with_id_tie_break
      (fst (generate_daily_selection Sample.db_tie 1 1000)).
Proof.
  intros H. vm_compute in H.
  destruct H as [[H|[_ H]] _]; discriminate H.
Qed.

Example ranking_of_tied_candidates :
  map (fun c => (user_id c, rank_position c))
      (fst (generate_daily_selection Sample.db_tie 1 1000))
  = [(3, 1); (2, 2)].
Proof. vm_compute. reflexivity. Qed.

(** C8 (amended): the selection is the first five of the qualifying
    candidates sorted by score, highest first; the qualifying candidates are
    taken in the order in which the eligibility query returned them, and
    candidates of equal score keep that order (there is no tie-break on the
    id).  The ranked list is thus determined by the state of the store,
    the order in which it returns rows included. *)
Theorem ranking_by_score_keeps_query_order
    (db : DB) (uid : Z) (now : datetime) (user : User) :
  get_user db uid = Some user ->
  let candidates :=
    _get_potential_candidates db user (_get_excluded_user_ids db uid now) in
  let scored := fst (score_candidates db uid candidates now []) in
  fst (generate_daily_selection db uid now)
  = map to_candidate
      (enumerate_from 0 (firstn settings.MAX_DAILY_PROFILES (sort_by_score scored)))
  /\ subseq (map fst scored) candidates
  /\ Forall (fun p => reaches_threshold (snd p) = true) scored
  /\ Permutation (sort_by_score scored) scored
  /\ scores_non_increasing (sort_by_score scored)
  /\ (forall s, with_score s (sort_by_score scored) = with_score s scored).
Proof.
  intros Hu candidates scored.
  split; [now apply generate_daily_selection_eq|].
  destruct (score_candidates_spec candidates db uid now [])
    as (added & E & Hsub & Hthr & _).
  simpl in E. fold scored in E. rewrite E.
  split; [assumption|].
  split; [assumption|].
  split; [apply sort_by_score_perm|].
  split; [apply sort_by_score_non_increasing|].
  intros s. apply sort_by_score_stable.
Qed.

Lemma ranking_by_score_keeps_query_order_witness :
  map user_id (fst (generate_daily_selection Sample.db_tie 1 1000)) = [3; 2]
  /\ map id (_get_potential_candidates Sample.db_tie Sample.alice
               (_get_excluded_user_ids Sample.db_tie 1 1000)) = [3; 2].
Proof.
  pose proof (ranking_by_score_keeps_query_order Sample.db_tie 1 1000
                (user := Sample.alice) eq_refl) as H.
  cbv zeta in H. destruct H as [H _].
  split; [rewrite H|]; vm_compute; reflexivity.
Defined.

(** ** Ad-hoc ranking *)

Lemma effective_max_results_cap (n : Z) :
  n > 10 -> effective_max_results (Some n) = 10.
Proof.
  intros H. unfold effective_max_results.
  destruct n as [|p|p]; try lia.
Qed.

Lemma enumerate_from_length {A} (l : list A) (i : Z) :
  length (enumerate_from i l) = length l.
Proof.
  revert i. induction l as [|x l IH]; simpl; intros i; [reflexivity|].
  now rewrite IH.
Qed.

(** The answer of [get_matching_candidates] depends on [max_results]
    through the effective limit alone. *)
Lemma get_matching_candidates_limit
    (db : DB) (uid : Z) (excl : option (list Z)) (m1 m2 : option Z)
    (now : datetime) :
  effective_max_results m1 = effective_max_results m2 ->
  get_matching_candidates db (mkMatchingRequest uid excl m1) now
  = get_matching_candidates db (mkMatchingRequest uid excl m2) now.
Proof.
  intros E. unfold get_matching_candidates. simpl. now rewrite E.
Qed.

Lemma get_matching_candidates_length
    (db : DB) (uid : Z) (excl : option (list Z)) (m : option Z)
    (now : datetime) (l : list DailySelectionCandidate) :
  0 <= effective_max_results m ->
  fst (get_matching_candidates db (mkMatchingRequest uid excl m) now) = inl l ->
  Z.of_nat (length l) <= effective_max_results m.
Proof.
  intros Hpos. unfold get_matching_candidates. simpl.
  destruct (get_user db uid); [|discriminate].
  destruct (score_candidates db uid _ now []) as [scored db1]. simpl.
  intros H. injection H as <-.
  rewrite length_map, enumerate_from_length. unfold slice_to.
  destruct (Z.ltb_spec (effective_max_results m) 0); [lia|].
  pose proof (firstn_le_length (Z.to_nat (effective_max_results m))
                (sort_by_score scored)). lia.
Qed.

(** C10: a request with [max_results = 0] is answered as one with
    [max_results = 5] (or with none): the limit is 5, not 0, so at most five
    candidates come back and the list need not be empty (the two tied
    candidates of the sample are both returned).  A requested value above 10
    is answered as 10. *)
Theorem max_results_zero_means_five :
  effective_max_results (Some 0) = 5
  /\ effective_max_results None = 5
  /\ (forall db uid excl now,
        get_matching_candidates db (mkMatchingRequest uid excl (Some 0)) now
        = get_matching_candidates db (mkMatchingRequest uid excl (Some 5)) now
        /\ get_matching_candidates db (mkMatchingRequest uid excl (Some 0)) now
           = get_matching_candidates db (mkMatchingRequest uid excl None) now)
  /\ (forall db uid excl now l,
        fst (get_matching_candidates db (mkMatchingRequest uid excl (Some 0)) now)
        = inl l ->
        (length l <= 5)%nat)
  /\ option_map (map user_id)
       (match fst (get_matching_candidates Sample.db_tie
                     (mkMatchingRequest 1 None (Some 0)) 1000) with
        | inl l => Some l
        | inr _ => None
        end) = Some [3; 2]
  /\ (forall n, n > 10 -> effective_max_results (Some n) = 10)
  /\ (forall db uid excl now n,
        n > 10 ->
        get_matching_candidates db (mkMatchingRequest uid excl (Some n)) now
        = get_matching_candidates db (mkMatchingRequest uid excl (Some 10)) now)
  /\ (forall db uid excl now n l,
        n > 10 ->
        fst (get_matching_candidates db (mkMatchingRequest uid excl (Some n)) now)
        = inl l ->
        (length l <= 10)%nat).
Proof.
  split; [reflexivity|]. split; [reflexivity|].
  split.
  { intros db uid excl now.
    split; apply get_matching_candidates_limit; reflexivity. }
  split.
  { intros db uid excl now l H.
    apply get_matching_candidates_length in H; [|discriminate].
    change (effective_max_results (Some 0)) with 5 in H. lia. }
  split; [vm_compute; reflexivity|].
  split; [exact effective_max_results_cap|].
  split.
  { intros db uid excl now n Hn.
    apply get_matching_candidates_limit.
    now rewrite effective_max_results_cap. }
  intros db uid excl now n l Hn H.
  apply get_matching_candidates_length in H;
    rewrite (effective_max_results_cap Hn) in *; lia.
Qed.

(** ** Recording a choice *)

Lemma today_choices_same_day (db : DB) (uid : Z) (t t' : datetime) :
  date t' = date t -> today_choices db uid t' = today_choices db uid t.
Proof.
  intros E. unfold today_choices. do 2 f_equal.
  unfold counts_today. now rewrite E.
Qed.

Lemma midnight_le (t : datetime) : date t * seconds_per_day <= t.
Proof.
  unfold date, seconds_per_day.
  rewrite Z.mul_comm. apply Z.mul_div_le. lia.
Qed.

(** No row being dated later than [now], the rows counted against the limit
    are the chooser's rows dated today. *)
Lemma today_choices_dated_today (db : DB) (uid : Z) (now : datetime) :
  (forall c, In c (user_choices db) -> choice_date c <= now) ->
  today_choices db uid now
  = Z.of_nat (length (filter (dated_today uid now) (user_choices db))).
Proof.
  intros Hpast. unfold today_choices. do 2 f_equal.
  apply filter_ext_in. intros c Hc. specialize (Hpast c Hc).
  unfold counts_today, dated_today. f_equal.
  pose proof (midnight_le (choice_date c)) as Hm.
  unfold date, seconds_per_day in *.
  destruct (Z.eqb_spec (choice_date c / 86400) (now / 86400)) as [E|E].
  - rewrite <- E. apply Z.geb_le. exact Hm.
  - destruct (Z.geb_spec (choice_date c) (now / 86400 * 86400)) as [G|G];
      [|reflexivity].
    exfalso. apply E.
    assert (now / 86400 <= choice_date c / 86400).
    { apply Z.div_le_lower_bound; lia. }
    assert (choice_date c / 86400 <= now / 86400).
    { apply Z.div_le_mono; lia. }
    lia.
Qed.

Lemma update_first_set_is_match_counts
    (p q : UserChoice -> bool) (l : list UserChoice) :
  (forall c, q (set_is_match c) = q c) ->
  length (filter q (update_first p set_is_match l)) = length (filter q l).
Proof.
  intros Hq. induction l as [|c l IH]; simpl; [reflexivity|].
  destruct (p c); simpl.
  - rewrite Hq. now destruct (q c).
  - destruct (q c); simpl; now rewrite IH.
Qed.

Lemma update_first_length {A} (p : A -> bool) (f : A -> A) (l : list A) :
  length (update_first p f l) = length l.
Proof.
  induction l as [|x l IH]; simpl; [reflexivity|].
  destruct (p x); simpl; congruence.
Qed.

Lemma update_first_found {A} (p : A -> bool) (f : A -> A) (l : list A) (r : A) :
  first p l = Some r -> In r l /\ p r = true /\ In (f r) (update_first p f l).
Proof.
  unfold first. induction l as [|x l IH]; simpl; [discriminate|].
  destruct (p x) eqn:Hp.
  - intros E. injection E as ->. repeat split; auto. now left.
  - intros E. destruct (IH E) as (H1 & H2 & H3). repeat split; auto.
    right. assumption.
Qed.

Lemma first_none {A} (p : A -> bool) (l : list A) :
  first p l = None <-> forall x, In x l -> p x = false.
Proof.
  unfold first. split.
  - intros H x Hx. apply (find_none p l H x Hx).
  - induction l as [|y l IH]; simpl; intros H; [reflexivity|].
    rewrite (H y (or_introl eq_refl)). apply IH. intros x Hx. apply H. now right.
Qed.

(** When one row only satisfies [p], it is the only one to satisfy [p]
    after the update, in its updated form. *)
Lemma update_first_unique {A} (p : A -> bool) (f : A -> A) (l : list A) (x : A) :
  length (filter p l) = 1%nat ->
  In x (update_first p f l) -> p x = true ->
  exists r, first p l = Some r /\ x = f r.
Proof.
  unfold first. induction l as [|y l IH]; simpl; [discriminate|].
  destruct (p y) eqn:Hy; simpl.
  - intros Hlen [<-|Hx] Hpx.
    + now exists y.
    + injection Hlen as Hlen. apply length_zero_iff_nil in Hlen.
      assert (Hin : In x (filter p l)) by (apply filter_In; now split).
      rewrite Hlen in Hin. destruct Hin.
  - intros Hlen [<-|Hx] Hpx; [congruence|]. now apply IH.
Qed.

(** The two outcomes of [make_user_choice] once both users are found. *)
Lemma make_user_choice_refused
    (db : DB) (uid chosen : Z) (now : datetime) (user chosen_user : User) :
  get_user db uid = Some user -> get_user db chosen = Some chosen_user ->
  today_choices db uid now >= max_choices user ->
  make_user_choice db uid chosen now = (inr QuotaExceeded, db).
Proof.
  intros Hu Hc Hq. unfold make_user_choice. rewrite Hu, Hc.
  destruct (Z.geb_spec (today_choices db uid now) (max_choices user));
    [reflexivity|lia].
Qed.

Lemma make_user_choice_accepted
    (db : DB) (uid chosen : Z) (now : datetime) (user chosen_user : User) :
  get_user db uid = Some user -> get_user db chosen = Some chosen_user ->
  today_choices db uid now < max_choices user ->
  exists row db',
    make_user_choice db uid chosen now = (inl row, db')
    /\ users db' = users db
    /\ length (user_choices db') = S (length (user_choices db))
    /\ (forall t, date t = date now ->
                  today_choices db' uid t = today_choices db uid t + 1).
Proof.
  intros Hu Hc Hq. unfold make_user_choice. rewrite Hu, Hc.
  destruct (Z.geb_spec (today_choices db uid now) (max_choices user)); [lia|].
  assert (Hnew : forall t m, date t = date now ->
                             counts_today uid t (mkUserChoice uid chosen now m) = true).
  { intros t m E. unfold counts_today. simpl. rewrite Z.eqb_refl, E. simpl.
    pose proof (midnight_le now). lia. }
  destruct (first (is_reverse_choice uid chosen) (user_choices db)) as [r|].
  - eexists _, _. split; [reflexivity|]. simpl.
    split; [reflexivity|]. split.
    + rewrite length_app, update_first_length. simpl. lia.
    + intros t E. unfold today_choices. simpl.
      rewrite filter_app, length_app. simpl. unfold set_is_match at 2. simpl.
      rewrite (Hnew t true E). simpl.
      rewrite update_first_set_is_match_counts by reflexivity. lia.
  - eexists _, _. split; [reflexivity|]. simpl.
    split; [reflexivity|]. split.
    + rewrite length_app. simpl. lia.
    + intros t E. unfold today_choices. simpl.
      rewrite filter_app, length_app. simpl.
      rewrite (Hnew t false E). simpl. lia.
Qed.

Lemma make_user_choice_refusal_keeps_db
    (db : DB) (uid chosen : Z) (now : datetime) (e : HTTPException) :
  fst (make_user_choice db uid chosen now) = inr e ->
  snd (make_user_choice db uid chosen now) = db.
Proof.
  unfold make_user_choice.
  destruct (get_user db uid); [|reflexivity].
  destruct (get_user db chosen); [|reflexivity].
  destruct (today_choices db uid now >=? max_choices u); [reflexivity|].
  destruct (first (is_reverse_choice uid chosen) (user_choices db));
    discriminate.
Qed.

Lemma make_user_choice_quota_iff
    (db : DB) (uid chosen : Z) (now : datetime) (user : User) :
  get_user db uid = Some user -> get_user db chosen <> None ->
  (fst (make_user_choice db uid chosen now) = inr QuotaExceeded
   <-> today_choices db uid now >= max_choices user).
Proof.
  intros Hu Hc.
  destruct (get_user db chosen) as [cu|] eqn:Hcu; [clear Hc|congruence].
  split.
  - intros H.
    destruct (Z_lt_ge_dec (today_choices db uid now) (max_choices user))
      as [Hlt|Hge]; [|exact Hge].
    destruct (make_user_choice_accepted db uid chosen now Hu Hcu Hlt)
      as (row & db' & E & _).
    rewrite E in H. discriminate H.
  - intros H. now rewrite (make_user_choice_refused db uid chosen now Hu Hcu H).
Qed.

(** C4, as stated, fails: Alice made two choices today as a premium user and
    was then set back to standard: her count (2) differs from her quota (1),
    and her next choice is refused with QuotaExceeded all the same. *)
Lemma quota_refuses_above_the_limit :
  option_map max_choices (get_user Scenario.db_downgraded 1) = Some 1
  /\ get_user Scenario.db_downgraded 4 <> None
  /\ today_choices Scenario.db_downgraded 1 3000 = 2
  /\ make_user_choice Scenario.db_downgraded 1 4 3000
     = (inr QuotaExceeded, Scenario.db_downgraded)
  /\ ~ (fst (make_user_choice Scenario.db_downgraded 1 4 3000) = inr QuotaExceeded
        <-> today_choices Scenario.db_downgraded 1 3000 = 1).
Proof.
  split; [reflexivity|].
  split; [vm_compute; discriminate|].
  split; [reflexivity|].
  split; [reflexivity|].
  intros [H _]. specialize (H eq_refl). vm_compute in H. discriminate H.
Qed.

(** C4 (amended): with chooser and chosen both found, [make_user_choice]
    answers QuotaExceeded exactly when the chooser's count of rows dated at
    or after today's midnight is at least the quota (1, or 3 for a premium
    user), and then writes nothing; so it does exactly when the count equals
    the quota as long as the count is not above it.  The rows counted are
    the rows dated today, no row being dated in the future.  From no row
    dated today, a standard user's first choice is accepted and the second,
    the same day, refused; a premium user's first three are accepted and the
    fourth refused. *)
Theorem daily_choice_quota :
  (forall db uid chosen now user,
      get_user db uid = Some user -> get_user db chosen <> None ->
      max_choices user = (if is_premium user then 3 else 1)
      /\ (today_choices db uid now >= max_choices user ->
          make_user_choice db uid chosen now = (inr QuotaExceeded, db))
      /\ (fst (make_user_choice db uid chosen now) = inr QuotaExceeded
          <-> today_choices db uid now >= max_choices user)
      /\ (today_choices db uid now <= max_choices user ->
          (fst (make_user_choice db uid chosen now) = inr QuotaExceeded
           <-> today_choices db uid now = max_choices user))
      /\ (fst (make_user_choice db uid chosen now) = inr QuotaExceeded ->
          snd (make_user_choice db uid chosen now) = db)
      /\ ((forall c, In c (user_choices db) -> choice_date c <= now) ->
          today_choices db uid now
          = Z.of_nat (length (filter (dated_today uid now) (user_choices db)))))
  /\ (forall db uid user c1 c2 t1 t2,
        get_user db uid = Some user -> is_premium user = false ->
        get_user db c1 <> None -> get_user db c2 <> None ->
        today_choices db uid t1 = 0 -> date t2 = date t1 ->
        exists row1 db1,
          make_user_choice db uid c1 t1 = (inl row1, db1)
          /\ make_user_choice db1 uid c2 t2 = (inr QuotaExceeded, db1))
  /\ (forall db uid user c1 c2 c3 c4 t1 t2 t3 t4,
        get_user db uid = Some user -> is_premium user = true ->
        get_user db c1 <> None -> get_user db c2 <> None ->
        get_user db c3 <> None -> get_user db c4 <> None ->
        today_choices db uid t1 = 0 ->
        date t2 = date t1 -> date t3 = date t1 -> date t4 = date t1 ->
        exists row1 db1 row2 db2 row3 db3,
          make_user_choice db uid c1 t1 = (inl row1, db1)
          /\ make_user_choice db1 uid c2 t2 = (inl row2, db2)
          /\ make_user_choice db2 uid c3 t3 = (inl row3, db3)
          /\ make_user_choice db3 uid c4 t4 = (inr QuotaExceeded, db3)).
Proof.
  split; [|split].
  - intros db uid chosen now user Hu Hc.
    split; [reflexivity|].
    destruct (get_user db chosen) as [cu|] eqn:Hcu; [|congruence].
    split; [now apply make_user_choice_refused with cu|].
    split.
    { apply (make_user_choice_quota_iff db uid chosen now Hu).
      rewrite Hcu. discriminate. }
    split.
    + intros Hle.
      rewrite (make_user_choice_quota_iff db uid chosen now Hu)
        by (rewrite Hcu; discriminate).
      lia.
    + split; [apply make_user_choice_refusal_keeps_db|].
      apply today_choices_dated_today.
  - intros db uid user c1 c2 t1 t2 Hu Hp H1 H2 H0 E2.
    destruct (get_user db c1) as [u1|] eqn:Hc1; [|congruence].
    destruct (get_user db c2) as [u2|] eqn:Hc2; [|congruence].
    assert (Hq : max_choices user = 1) by (unfold max_choices; now rewrite Hp).
    destruct (make_user_choice_accepted db uid c1 t1 Hu Hc1)
      as (row1 & db1 & E & Hus & _ & Hcount); [lia|].
    exists row1, db1. split; [exact E|].
    unfold get_user in *.
    apply make_user_choice_refused with (user := user) (chosen_user := u2);
      unfold get_user; try (rewrite Hus; assumption).
    rewrite (Hcount t2 E2), (today_choices_same_day db uid t1 t2 E2). lia.
  - intros db uid user c1 c2 c3 c4 t1 t2 t3 t4 Hu Hp H1 H2 H3 H4 H0 E2 E3 E4.
    destruct (get_user db c1) as [u1|] eqn:Hc1; [|congruence].
    destruct (get_user db c2) as [u2|] eqn:Hc2; [|congruence].
    destruct (get_user db c3) as [u3|] eqn:Hc3; [|congruence].
    destruct (get_user db c4) as [u4|] eqn:Hc4; [|congruence].
    assert (Hq : max_choices user = 3) by (unfold max_choices; now rewrite Hp).
    destruct (make_user_choice_accepted db uid c1 t1 Hu Hc1)
      as (row1 & db1 & Ea & Hus1 & _ & Hcount1); [lia|].
    assert (G1 : forall x, get_user db1 x = get_user db x)
      by (intros x; unfold get_user; now rewrite Hus1).
    assert (K1 : today_choices db1 uid t2 = 1).
    { rewrite (Hcount1 t2 E2), (today_choices_same_day db uid t1 t2 E2). lia. }
    destruct (make_user_choice_accepted db1 uid c2 t2 (user := user) (chosen_user := u2))
      as (row2 & db2 & Eb & Hus2 & _ & Hcount2);
      [now rewrite G1|now rewrite G1|lia|].
    assert (G2 : forall x, get_user db2 x = get_user db x)
      by (intros x; unfold get_user; now rewrite Hus2, Hus1).
    assert (K2 : today_choices db2 uid t3 = 2).
    { rewrite (Hcount2 t3) by congruence.
      rewrite (today_choices_same_day db1 uid t2 t3) by congruence.
      lia. }
    destruct (make_user_choice_accepted db2 uid c3 t3 (user := user) (chosen_user := u3))
      as (row3 & db3 & Ec & Hus3 & _ & Hcount3);
      [now rewrite G2|now rewrite G2|lia|].
    assert (G3 : forall x, get_user db3 x = get_user db x)
      by (intros x; unfold get_user; now rewrite Hus3, Hus2, Hus1).
    assert (K3 : today_choices db3 uid t4 = 3).
    { rewrite (Hcount3 t4) by congruence.
      rewrite (today_choices_same_day db2 uid t3 t4) by congruence.
      lia. }
    exists row1, db1, row2, db2, row3, db3.
    repeat split; try assumption.
    apply make_user_choice_refused with (user := user) (chosen_user := u4);
      [now rewrite G3|now rewrite G3|lia].
Qed.

(** On the sample data: Alice, a standard user, then a premium one. *)
Example quota_standard :
  let r1 := make_user_choice Sample.db_standard 1 2 1000 in
  let r2 := make_user_choice (snd r1) 1 3 2000 in
  fst r1 = inl (mkUserChoice 1 2 1000 false)
  /\ r2 = (inr QuotaExceeded, snd r1).
Proof. vm_compute. split; reflexivity. Qed.

Example quota_premium :
  let r1 := make_user_choice Sample.db_premium 1 2 1000 in
  let r2 := make_user_choice (snd r1) 1 3 2000 in
  let r3 := make_user_choice (snd r2) 1 4 3000 in
  let r4 := make_user_choice (snd r3) 1 5 4000 in
  fst r1 = inl (mkUserChoice 1 2 1000 false)
  /\ fst r2 = inl (mkUserChoice 1 3 2000 false)
  /\ fst r3 = inl (mkUserChoice 1 4 3000 false)
  /\ r4 = (inr QuotaExceeded, snd r3).
Proof. vm_compute. repeat split; reflexivity. Qed.

Lemma daily_choice_quota_witness :
  get_user Scenario.db_downgraded 1 = Some Sample.alice
  /\ (fst (make_user_choice Scenario.db_downgraded 1 4 3000) = inr QuotaExceeded
      <-> today_choices Scenario.db_downgraded 1 3000 >= max_choices Sample.alice).
Proof.
  split; [reflexivity|].
  refine (proj1 (proj2 (proj2
            (proj1 daily_choice_quota Scenario.db_downgraded 1 4 3000 Sample.alice
                   eq_refl _)))).
  vm_compute. discriminate.
Defined.

(** ** Mutual match *)

Lemma is_reverse_choice_spec (uid chosen : Z) (c : UserChoice) :
  is_reverse_choice uid chosen c = true
  <-> uc_user_id c = chosen /\ chosen_user_id c = uid.
Proof. unfold is_reverse_choice. rewrite andb_true_iff, !Z.eqb_eq. tauto. Qed.

(** What an accepted choice does to the match flags.  The new row is dated
    [now] and goes last.  If some row of [chosen] choosing [uid] exists, of
    whatever date, the new row has [is_match] true and the reverse row the
    lookup returns (the first one) is rewritten with [is_match] true, the
    other rows staying as they were; when that reverse row is the only one,
    every reverse row ends with [is_match] true.  If there is no reverse
    row, the new row has [is_match] false and no other row changes. *)
Theorem mutual_match_marks_both_rows
    (db : DB) (uid chosen : Z) (now : datetime) (row : UserChoice) (db' : DB) :
  make_user_choice db uid chosen now = (inl row, db') ->
  uc_user_id row = uid /\ chosen_user_id row = chosen /\ choice_date row = now
  /\ (forall r, In r (user_choices db) ->
                uc_user_id r = chosen -> chosen_user_id r = uid ->
        is_match row = true
        /\ exists r0,
             first (is_reverse_choice uid chosen) (user_choices db) = Some r0
             /\ In r0 (user_choices db)
             /\ uc_user_id r0 = chosen /\ chosen_user_id r0 = uid
             /\ user_choices db'
                = update_first (is_reverse_choice uid chosen) set_is_match
                               (user_choices db) ++ [row]
             /\ In (set_is_match r0) (user_choices db'))
  /\ (length (filter (is_reverse_choice uid chosen) (user_choices db)) = 1%nat ->
      forall r', In r' (user_choices db') ->
                 uc_user_id r' = chosen -> chosen_user_id r' = uid ->
                 is_match r' = true)
  /\ ((forall r, In r (user_choices db) ->
                 ~ (uc_user_id r = chosen /\ chosen_user_id r = uid)) ->
      is_match row = false /\ user_choices db' = user_choices db ++ [row]).
Proof.
  unfold make_user_choice.
  destruct (get_user db uid) as [user|]; [|discriminate].
  destruct (get_user db chosen) as [cu|]; [|discriminate].
  destruct (today_choices db uid now >=? max_choices user); [discriminate|].
  destruct (first (is_reverse_choice uid chosen) (user_choices db)) as [r0|] eqn:Hf;
    intros E; injection E as <- <-; simpl;
    (split; [reflexivity|]); (split; [reflexivity|]); (split; [reflexivity|]).
  - destruct (update_first_found (is_reverse_choice uid chosen) set_is_match
                                 (user_choices db) Hf) as (Hin & Hrev & Hupd).
    apply is_reverse_choice_spec in Hrev. destruct Hrev as [Hr1 Hr2].
    split; [|split].
    + intros r _ _ _. split; [reflexivity|].
      exists r0. repeat split; try assumption.
      apply in_or_app. now left.
    + intros Hone r' Hr' H1 H2.
      apply in_app_or in Hr'. destruct Hr' as [Hr'|[<-|[]]]; [|reflexivity].
      destruct (update_first_unique (is_reverse_choice uid chosen) set_is_match
                                    (user_choices db) r' Hone Hr')
        as (r1 & _ & ->); [|reflexivity].
      now apply is_reverse_choice_spec.
    + intros Hnone. exfalso. apply (Hnone r0 Hin). now split.
  - pose proof (proj1 (first_none _ _) Hf) as Hnone.
    split; [|split].
    + intros r Hr H1 H2. exfalso.
      specialize (Hnone r Hr).
      assert (is_reverse_choice uid chosen r = true)
        by (now apply is_reverse_choice_spec).
      congruence.
    + intros Hone. rewrite filter_none in Hone by assumption. discriminate Hone.
    + intros _. split; reflexivity.
Qed.

(** Bob chose Alice on day 0; Alice chooses Bob on day 2: both rows end
    matched. *)
Lemma mutual_match_marks_both_rows_witness :
  make_user_choice Sample.db_mutual 1 2 200000
  = (inl (mkUserChoice 1 2 200000 true),
     set_user_choices Sample.db_mutual
       [mkUserChoice 2 1 100 true; mkUserChoice 1 2 200000 true])
  /\ forall r', In r' [mkUserChoice 2 1 100 true; mkUserChoice 1 2 200000 true] ->
                uc_user_id r' = 2 -> chosen_user_id r' = 1 -> is_match r' = true.
Proof.
  split; [reflexivity|].
  exact (proj1 (proj2 (proj2 (proj2 (proj2
           (mutual_match_marks_both_rows Sample.db_mutual 1 2 200000 eq_refl)))))
         eq_refl).
Defined.

(** C5: the new row is matched exactly when a reverse row exists, of
    whatever date, and the reverse row the lookup returns is then matched
    too; but the lookup returns one row, the first, and the other reverse
    rows are left as they were.  Bob chose Alice on day 0 and again on
    day 1; Alice chooses Bob on day 2: her row and Bob's first row are
    matched, Bob's second row is not, though each has chosen the other. *)
Theorem later_reverse_row_left_unmatched :
  (forall db uid chosen now row db',
      make_user_choice db uid chosen now = (inl row, db') ->
      (is_match row = true
       <-> exists r, In r (user_choices db)
                     /\ uc_user_id r = chosen /\ chosen_user_id r = uid)
      /\ (forall r0,
            first (is_reverse_choice uid chosen) (user_choices db) = Some r0 ->
            In (set_is_match r0) (user_choices db')))
  /\ user_choices Scenario.db_chosen_twice
     = [mkUserChoice 2 1 100 false; mkUserChoice 2 1 90000 false]
  /\ make_user_choice Scenario.db_chosen_twice 1 2 180000
     = (inl (mkUserChoice 1 2 180000 true),
        set_user_choices Scenario.db_chosen_twice
          [mkUserChoice 2 1 100 true; mkUserChoice 2 1 90000 false;
           mkUserChoice 1 2 180000 true]).
Proof.
  split; [|split; reflexivity].
  intros db uid chosen now row db' E. unfold make_user_choice in E.
  destruct (get_user db uid) as [user|]; [|discriminate].
  destruct (get_user db chosen) as [cu|]; [|discriminate].
  destruct (today_choices db uid now >=? max_choices user); [discriminate|].
  destruct (first (is_reverse_choice uid chosen) (user_choices db)) as [r0|] eqn:Hf;
    injection E as <- <-; simpl.
  - destruct (update_first_found (is_reverse_choice uid chosen) set_is_match
                                 (user_choices db) Hf) as (Hin & Hrev & Hupd).
    apply is_reverse_choice_spec in Hrev.
    split.
    + split; [intros _; now exists r0|reflexivity].
    + intros r E. injection E as <-. apply in_or_app. now left.
  - pose proof (proj1 (first_none _ _) Hf) as Hnone.
    split; [|discriminate].
    split; [discriminate|].
    intros (r & Hr & H1 & H2). exfalso.
    specialize (Hnone r Hr).
    assert (is_reverse_choice uid chosen r = true)
      by (now apply is_reverse_choice_spec).
    congruence.
Qed.

(** ** Reading today's selection again *)

Lemma date_noon (t : datetime) :
  date (date t * seconds_per_day + 12 * 3600) = date t.
Proof.
  unfold date, seconds_per_day.
  rewrite Z.add_comm, Z.div_add by lia.
  change (12 * 3600 / 86400) with 0. lia.
Qed.

Lemma get_user_unique (db : DB) (u : User) :
  NoDup (map id (users db)) -> In u (users db) -> get_user db (id u) = Some u.
Proof.
  unfold get_user, first. induction (users db) as [|x l IH]; simpl; [tauto|].
  intros Hnd [->|Hin].
  - now rewrite Z.eqb_refl.
  - inversion Hnd as [|? ? Hx Hl]; subst.
    destruct (Z.eqb_spec (id x) (id u)) as [E|_]; [|now apply IH].
    exfalso. apply Hx. rewrite E. now apply in_map.
Qed.

Lemma stable_sort_in_order {A} (before : A -> A -> bool) (l : list A) :
  in_order before l -> stable_sort before l = l.
Proof.
  induction l as [|x l IH]; [reflexivity|].
  intros H. simpl stable_sort.
  destruct l as [|y l]; [reflexivity|].
  destruct H as [Hyx Hl]. rewrite (IH Hl). simpl. now rewrite Hyx.
Qed.

(** The rows stored for a ranked list are in rank order. *)
Lemma selection_rows_in_order
    (uid : Z) (sd : datetime) (top : list (User * float)) (i : Z) :
  in_order (fun s1 s2 => ds_rank_position s1 <? ds_rank_position s2)
           (map (selection_row uid sd) (map to_candidate (enumerate_from i top))).
Proof.
  revert i. induction top as [|[c s] top IH]; intros i; [exact I|].
  specialize (IH (i + 1)).
  destruct top as [|[c' s'] top]; [exact I|].
  split; [|exact IH].
  simpl. lia.
Qed.

(** Reading the stored rows back gives the ranked list, provided the
    candidates are rows of [users] and ids are unique. *)
Lemma stored_candidates_read_back
    (db : DB) (uid : Z) (sd : datetime) (top : list (User * float)) (i : Z) :
  NoDup (map id (users db)) ->
  (forall c s, In (c, s) top -> In c (users db)) ->
  filter_map (stored_candidate db)
    (map (selection_row uid sd) (map to_candidate (enumerate_from i top)))
  = map to_candidate (enumerate_from i top).
Proof.
  intros Hnd. revert i.
  induction top as [|[c s] top IH]; intros i Hin; [reflexivity|].
  simpl. unfold stored_candidate at 1. simpl.
  rewrite (get_user_unique db c Hnd) by (apply (Hin c s); now left).
  simpl. f_equal. apply IH. intros c' s' H. apply (Hin c' s'). now right.
Qed.

Lemma filter_all {A} (p : A -> bool) (l : list A) :
  (forall x, In x l -> p x = true) -> filter p l = l.
Proof.
  induction l as [|x l IH]; simpl; intros H; [reflexivity|].
  rewrite (H x (or_introl eq_refl)). f_equal. apply IH.
  intros y Hy. apply H. now right.
Qed.

(** The shape of a generated selection and of the state it leaves. *)
Lemma generate_daily_selection_shape
    (db : DB) (uid : Z) (now : datetime) (user : User) :
  get_user db uid = Some user ->
  exists top dbs,
    same_tables db dbs
    /\ (forall c s, In (c, s) top -> In c (users db))
    /\ generate_daily_selection db uid now
       = (map to_candidate (enumerate_from 0 top),
          _store_daily_selection dbs uid
            (map to_candidate (enumerate_from 0 top)) now).
Proof.
  intros Hu. unfold generate_daily_selection. rewrite Hu.
  destruct (score_candidates_spec
              (_get_potential_candidates db user (_get_excluded_user_ids db uid now))
              db uid now []) as (added & E & Hsub & _ & Hsame).
  destruct (score_candidates db uid _ now []) as [scored dbs].
  simpl in E, Hsame. subst scored.
  rewrite min_fallback_unreachable.
  exists (firstn settings.MAX_DAILY_PROFILES (sort_by_score added)), dbs.
  split; [exact Hsame|]. split; [|reflexivity].
  intros c s H. apply In_firstn, stable_sort_In in H.
  assert (Hc : In c (_get_potential_candidates db user
                       (_get_excluded_user_ids db uid now))).
  { eapply subseq_In; [exact Hsub|]. apply in_map_iff. now exists (c, s). }
  now apply potential_candidates_eligible in Hc.
Qed.

(** After a non-empty selection was stored for the day, the rows read for
    that day are the stored ones, in rank order. *)
Lemma today_selections_after_store
    (db : DB) (uid : Z) (now now' : datetime) (top : list (User * float)) :
  date now' = date now ->
  today_selections
    (_store_daily_selection db uid (map to_candidate (enumerate_from 0 top)) now)
    uid now'
  = map (selection_row uid (date now * seconds_per_day + 12 * 3600))
        (map to_candidate (enumerate_from 0 top)).
Proof.
  intros E. unfold today_selections, _store_daily_selection. simpl.
  rewrite filter_app, E, date_noon.
  rewrite (filter_none (same_day_selection uid (date now))).
  - simpl. rewrite filter_all.
    + apply stable_sort_in_order, selection_rows_in_order.
    + intros x Hx. apply in_map_iff in Hx. destruct Hx as [c [<- _]].
      unfold same_day_selection, selection_row. simpl.
      now rewrite Z.eqb_refl, date_noon, Z.eqb_refl.
  - intros x Hx. apply filter_In in Hx. destruct Hx as [_ Hx].
    now apply negb_true_iff in Hx.
Qed.

(** C7, as stated, fails: Alice's choice of Bob leaves the 30-day window
    between two calls one second apart on day 30.  The first call finds
    nobody and stores nothing; the second computes again and returns Bob. *)
Lemma today_selection_repeat_differs :
  date 2592100 = date 2592099
  /\ fst (get_today_selection Sample.db_chosen 1 2592099) = []
  /\ map user_id
       (fst (get_today_selection
               (snd (get_today_selection Sample.db_chosen 1 2592099))
               1 2592100)) = [2]
  /\ fst (get_today_selection
            (snd (get_today_selection Sample.db_chosen 1 2592099)) 1 2592100)
     <> fst (get_today_selection Sample.db_chosen 1 2592099).
Proof.
  split; [reflexivity|]. split; [vm_compute; reflexivity|].
  split; [vm_compute; reflexivity|].
  intros H. apply (f_equal (@length _)) in H. vm_compute in H. discriminate H.
Qed.

(** C7 (amended): with user ids unique, when [get_today_selection] returns a
    non-empty list, a second call for the same user on the same day returns
    the identical list and leaves the state as it was: it reads the stored
    rows.  (An empty result is not stored; the next call computes again.) *)
Theorem today_selection_repeat
    (db : DB) (uid : Z) (now1 now2 : datetime) :
  NoDup (map id (users db)) ->
  date now2 = date now1 ->
  fst (get_today_selection db uid now1) <> [] ->
  get_today_selection (snd (get_today_selection db uid now1)) uid now2
  = (fst (get_today_selection db uid now1),
     snd (get_today_selection db uid now1)).
Proof.
  intros Hnd E Hne. unfold get_today_selection at 2 3 4.
  unfold get_today_selection in Hne.
  destruct (today_selections db uid now1) as [|s0 rows] eqn:Hrows.
  - destruct (get_user db uid) as [user|] eqn:Hu.
    + destruct (generate_daily_selection_shape db uid now1 Hu)
        as (top & dbs & Hsame & Hin & Hgen).
      rewrite Hgen in *. simpl in *.
      unfold get_today_selection.
      rewrite (today_selections_after_store dbs uid now1 now2 top E).
      destruct Hsame as (Hus & _).
      destruct (map (selection_row uid (date now1 * seconds_per_day + 12 * 3600))
                    (map to_candidate (enumerate_from 0 top))) eqn:Hstored.
      * exfalso. apply Hne.
        apply map_eq_nil in Hstored. exact Hstored.
      * rewrite <- Hstored. f_equal.
        apply stored_candidates_read_back.
        -- simpl. now rewrite Hus.
        -- simpl. rewrite Hus. exact Hin.
    + unfold generate_daily_selection in Hne. rewrite Hu in Hne.
      now contradiction Hne.
  - simpl. unfold get_today_selection.
    assert (Hsame : today_selections db uid now2 = today_selections db uid now1)
      by (unfold today_selections; now rewrite E).
    now rewrite Hsame, Hrows.
Qed.

Lemma today_selection_repeat_witness :
  map user_id (fst (get_today_selection Sample.db_tie 1 1000)) = [3; 2]
  /\ get_today_selection (snd (get_today_selection Sample.db_tie 1 1000)) 1 5000
     = (fst (get_today_selection Sample.db_tie 1 1000),
        snd (get_today_selection Sample.db_tie 1 1000)).
Proof.
  split; [vm_compute; reflexivity|].
  apply today_selection_repeat.
  - simpl. repeat constructor; simpl; intuition discriminate.
  - reflexivity.
  - vm_compute. discriminate.
Defined.

(** * Further properties of the service *)

(** ** The cache as a store: write, then read *)

Lemma find_app {A} (p : A -> bool) (l1 l2 : list A) :
  find p (l1 ++ l2) = match find p l1 with Some x => Some x | None => find p l2 end.
Proof.
  induction l1 as [|x l1 IH]; simpl; [reflexivity|].
  now destruct (p x).
Qed.

Lemma find_filter_implied {A} (p q : A -> bool) (l : list A) :
  (forall x, p x = true -> q x = true) -> find p (filter q l) = find p l.
Proof.
  intros H. induction l as [|x l IH]; simpl; [reflexivity|].
  destruct (q x) eqn:Hq; simpl.
  - now rewrite IH.
  - destruct (p x) eqn:Hp; [|exact IH].
    rewrite (H x Hp) in Hq. discriminate.
Qed.

Lemma find_filter_excluded {A} (p q : A -> bool) (l : list A) :
  (forall x, p x = true -> q x = false) -> find p (filter q l) = None.
Proof.
  intros H. induction l as [|x l IH]; simpl; [reflexivity|].
  destruct (q x) eqn:Hq; simpl; [|exact IH].
  destruct (p x) eqn:Hp; [|exact IH].
  rewrite (H x Hp) in Hq. discriminate.
Qed.

Lemma ordered_init (a b : Z) (s : float) (now : datetime) :
  CompatibilityCache__init__ (fst (ordered a b)) (snd (ordered a b)) s now
  = mkCompatibilityCache (fst (ordered a b)) (snd (ordered a b)) s now.
Proof.
  unfold CompatibilityCache__init__. pose proof (ordered_le a b).
  destruct (Z.gtb_spec (fst (ordered a b)) (snd (ordered a b))); [lia|reflexivity].
Qed.

Lemma cached_after_write (db : DB) (a b : Z) (s : float) (now now' : datetime) :
  _get_cached_compatibility (_cache_compatibility db a b s now) a b now'
  = if now >? now' - timedelta_hours 24 then Some s else None.
Proof.
  unfold _get_cached_compatibility, _cache_compatibility.
  pose proof (ordered_init a b s now) as Hinit.
  destruct (ordered a b) as [lo hi]. simpl in Hinit. simpl.
  unfold first. rewrite find_app, find_filter_excluded.
  - rewrite Hinit.
    cbn [find user1_id user2_id calculated_at cc_compatibility_score].
    rewrite !Z.eqb_refl. cbn [andb].
    now destruct (now >? _).
  - intros c Hc. apply andb_true_iff in Hc. destruct Hc as [Hc _].
    now rewrite Hc.
Qed.

(** X1: a score written for a pair is read back, with the ids in either
    order, for 24 hours from the write and not after, whatever rows the table
    held for the pair before. *)
Theorem cache_write_then_read
    (db : DB) (a b : Z) (s : float) (now now' : datetime) :
  _get_cached_compatibility (_cache_compatibility db a b s now) a b now'
  = (if now' <? now + timedelta_hours 24 then Some s else None)
  /\ _get_cached_compatibility (_cache_compatibility db a b s now) b a now'
     = (if now' <? now + timedelta_hours 24 then Some s else None)
  /\ _get_cached_compatibility (_cache_compatibility db b a s now) a b now'
     = (if now' <? now + timedelta_hours 24 then Some s else None).
Proof.
  assert (E : (now >? now' - timedelta_hours 24)
              = (now' <? now + timedelta_hours 24)).
  { destruct (Z.gtb_spec now (now' - timedelta_hours 24)),
             (Z.ltb_spec now' (now + timedelta_hours 24)); try reflexivity; lia. }
  rewrite <- E.
  split; [apply cached_after_write|].
  split.
  - rewrite <- get_cached_comm. apply cached_after_write.
  - rewrite cache_compatibility_comm. apply cached_after_write.
Qed.

(** X2: writing the score of one pair leaves what is read for any other
    pair as it was. *)
Theorem cache_write_other_pair
    (db : DB) (a b c d : Z) (s : float) (now now' : datetime) :
  ordered c d <> ordered a b ->
  _get_cached_compatibility (_cache_compatibility db a b s now) c d now'
  = _get_cached_compatibility db c d now'.
Proof.
  intros Hne. unfold _get_cached_compatibility, _cache_compatibility.
  pose proof (ordered_init a b s now) as Hinit.
  destruct (ordered a b) as [lo hi], (ordered c d) as [lo' hi'].
  simpl in Hinit. simpl.
  assert (Hkey : (lo' =? lo) && (hi' =? hi) = false).
  { destruct (Z.eqb_spec lo' lo), (Z.eqb_spec hi' hi); try reflexivity.
    subst. now contradiction Hne. }
  unfold first. rewrite find_app, find_filter_implied.
  - destruct (find _ (compatibility_cache db)); [reflexivity|].
    rewrite Hinit. simpl.
    rewrite (Z.eqb_sym lo lo'), (Z.eqb_sym hi hi'), Hkey. reflexivity.
  - intros x Hx. apply andb_true_iff in Hx. destruct Hx as [Hx _].
    apply andb_true_iff in Hx. destruct Hx as [H1 H2].
    apply Z.eqb_eq in H1, H2. rewrite H1, H2.
    now rewrite Hkey.
Qed.

Lemma cache_write_other_pair_witness :
  _get_cached_compatibility
    (_cache_compatibility
       (_cache_compatibility (mkDB [] [] [] [] []) 3 1 0.5%float 10)
       2 1 1%float 20)
    1 3 30
  = Some 0.5%float.
Proof.
  rewrite cache_write_other_pair; [reflexivity|].
  vm_compute. discriminate.
Defined.

(** ** Reading through the cache *)


Lemma personality_vector_none (db : DB) (uid : Z) :
  length (filter (fun r => pr_user_id r =? uid) (personality_responses db))
  <> settings.PERSONALITY_QUESTIONS_COUNT ->
  _get_personality_vector db uid = None.
Proof.
  intros H. unfold _get_personality_vector.
  rewrite stable_sort_length.
  destruct (Nat.eqb_spec
              (length (filter (fun r => pr_user_id r =? uid)
                              (personality_responses db)))
              settings.PERSONALITY_QUESTIONS_COUNT); [contradiction|reflexivity].
Qed.

Lemma personality_vector_some (db : DB) (uid : Z) (v : list float) :
  _get_personality_vector db uid = Some v ->
  length v = settings.PERSONALITY_QUESTIONS_COUNT
  /\ length (filter (fun r => pr_user_id r =? uid) (personality_responses db))
     = settings.PERSONALITY_QUESTIONS_COUNT.
Proof.
  unfold _get_personality_vector.
  destruct (Nat.eqb_spec
              (length (stable_sort (fun r1 r2 => question_id r1 <? question_id r2)
                         (filter (fun r => pr_user_id r =? uid)
                                 (personality_responses db))))
              settings.PERSONALITY_QUESTIONS_COUNT) as [E|E]; simpl;
    [|discriminate].
  intros H. injection H as <-. rewrite length_map. split; [exact E|].
  now rewrite stable_sort_length in E.
Qed.



Lemma score_zero_without_vector (db : DB) (a b : Z) (now : datetime) :
  length (filter (fun r => pr_user_id r =? a) (personality_responses db))
    <> 10%nat
  \/ length (filter (fun r => pr_user_id r =? b) (personality_responses db))
       <> 10%nat ->
  _get_cached_compatibility db a b now = None ->
  calculate_compatibility_score db a b now = (0%float, db).
Proof.
  intros H Hmiss. unfold calculate_compatibility_score. rewrite Hmiss.
  destruct H as [H|H]; rewrite (personality_vector_none db _ H); simpl;
    [reflexivity|].
  now rewrite orb_true_r.
Qed.

(** X4: when one of the two users has not exactly ten stored answers and no
    live cache row exists for the pair, the score is 0.0 and nothing is
    written, the cache included: the next request computes again. *)
Theorem incomplete_profile_scores_zero (db : DB) (a b : Z) (now : datetime) :
  length (filter (fun r => pr_user_id r =? a) (personality_responses db))
    <> 10%nat
  \/ length (filter (fun r => pr_user_id r =? b) (personality_responses db))
       <> 10%nat ->
  _get_cached_compatibility db a b now = None ->
  calculate_compatibility_score db a b now = (0%float, db)
  /\ calculate_compatibility_score db b a now = (0%float, db)
  /\ _get_cached_compatibility
       (snd (calculate_compatibility_score db a b now)) a b now = None.
Proof.
  intros H Hmiss.
  pose proof (score_zero_without_vector db a b now H Hmiss) as E.
  split; [exact E|]. split.
  - now rewrite <- calculate_compatibility_score_comm.
  - now rewrite E.
Qed.

Lemma incomplete_profile_scores_zero_witness :
  calculate_compatibility_score Scenario.db_incomplete 1 2 1000
  = (0%float, Scenario.db_incomplete).
Proof.
  refine (proj1 (incomplete_profile_scores_zero Scenario.db_incomplete 1 2 1000
                   _ _)).
  - left. vm_compute. discriminate.
  - reflexivity.
Defined.

Lemma score_candidates_without_vector
    (candidates : list User) (db : DB) (uid : Z) (now : datetime)
    (acc : list (User * float)) :
  length (filter (fun r => pr_user_id r =? uid) (personality_responses db))
    <> 10%nat ->
  (forall c, _get_cached_compatibility db uid c now = None) ->
  score_candidates db uid candidates now acc = (acc, db).
Proof.
  intros Hn Hmiss. revert acc.
  induction candidates as [|c rest IH]; intros acc; simpl; [reflexivity|].
  rewrite (score_zero_without_vector db uid (id c) now (or_introl Hn) (Hmiss _)).
  change (settings.COMPATIBILITY_THRESHOLD <=? 0)%float with false.
  apply IH.
Qed.

(** X5: a subject who has not exactly ten stored answers, and for whom the
    cache holds no live row, is given an empty selection; no selection row
    is added, and the cache, the users, the answers and the choices stay as
    they were. *)
Theorem no_selection_without_questionnaire (db : DB) (uid : Z) (now : datetime) :
  length (filter (fun r => pr_user_id r =? uid) (personality_responses db))
    <> 10%nat ->
  (forall c, _get_cached_compatibility db uid c now = None) ->
  fst (generate_daily_selection db uid now) = []
  /\ (forall s, In s (daily_selections (snd (generate_daily_selection db uid now))) ->
                In s (daily_selections db))
  /\ compatibility_cache (snd (generate_daily_selection db uid now))
     = compatibility_cache db
  /\ users (snd (generate_daily_selection db uid now)) = users db
  /\ personality_responses (snd (generate_daily_selection db uid now))
     = personality_responses db
  /\ user_choices (snd (generate_daily_selection db uid now)) = user_choices db.
Proof.
  intros Hn Hmiss. unfold generate_daily_selection.
  destruct (get_user db uid) as [user|].
  - rewrite (score_candidates_without_vector _ db uid now [] Hn Hmiss).
    simpl. split; [reflexivity|]. split; [|repeat split; reflexivity].
    intros s Hs. rewrite app_nil_r in Hs. now apply filter_In in Hs.
  - simpl. split; [reflexivity|]. split; [tauto|repeat split; reflexivity].
Qed.

Lemma no_selection_without_questionnaire_witness :
  fst (generate_daily_selection Scenario.db_incomplete 1 1000) = []
  /\ compatibility_cache
       (snd (generate_daily_selection Scenario.db_incomplete 1 1000)) = [].
Proof.
  pose proof (no_selection_without_questionnaire Scenario.db_incomplete 1 1000)
    as H.
  destruct H as (H1 & _ & H2 & _).
  - vm_compute. discriminate.
  - intros c. unfold _get_cached_compatibility.
    now destruct (ordered 1 c).
  - split; [exact H1|exact H2].
Defined.

(** ** The personality vector and the order of the stored rows *)

Section SortedByKey.
Variable A : Type.
Variable key : A -> Z.

Let key_before (x y : A) : bool := key x <? key y.

Lemma key_before_asym (x y : A) :
  key_before x y = true -> key_before y x = false.
Proof.
  unfold key_before.
  destruct (Z.ltb_spec (key x) (key y)), (Z.ltb_spec (key y) (key x));
    try reflexivity; try discriminate; lia.
Qed.

Lemma in_order_tail (x : A) (l : list A) :
  in_order key_before (x :: l) -> in_order key_before l.
Proof. destruct l as [|y l]; simpl; tauto. Qed.

Lemma in_order_head_le (l : list A) (x y : A) :
  in_order key_before (x :: l) -> In y l -> key x <= key y.
Proof.
  revert x. induction l as [|z l IH]; intros x Hs Hy; [destruct Hy|].
  destruct Hs as [Hzx Hs].
  assert (key x <= key z)
    by (unfold key_before in Hzx; now apply Z.ltb_ge in Hzx).
  destruct Hy as [->|Hy]; [assumption|].
  specialize (IH z Hs Hy). lia.
Qed.

(** Two sorted lists with the same elements and no repeated key are equal. *)
Lemma sorted_perm_unique (l1 l2 : list A) :
  in_order key_before l1 -> in_order key_before l2 ->
  Permutation l1 l2 -> NoDup (map key l1) -> l1 = l2.
Proof.
  revert l2. induction l1 as [|x1 t1 IH]; intros l2 H1 H2 Hp Hnd.
  - apply Permutation_nil in Hp. now subst.
  - destruct l2 as [|x2 t2];
      [apply Permutation_sym, Permutation_nil in Hp; discriminate|].
    assert (Hin2 : In x2 (x1 :: t1))
      by (apply (Permutation_in x2 (Permutation_sym Hp)); now left).
    assert (Hin1 : In x1 (x2 :: t2))
      by (apply (Permutation_in x1 Hp); now left).
    inversion Hnd as [|? ? Hx1 Hnd']; subst.
    assert (E : x2 = x1).
    { destruct Hin2 as [E|Hin2]; [now symmetry|].
      exfalso.
      assert (key x1 <= key x2) by (exact (@in_order_head_le t1 x1 x2 H1 Hin2)).
      assert (key x2 <= key x1).
      { destruct Hin1 as [->|Hin1]; [lia|].
        exact (@in_order_head_le t2 x2 x1 H2 Hin1). }
      apply Hx1. replace (key x1) with (key x2) by lia.
      now apply in_map. }
    subst x2. f_equal.
    apply IH.
    + now apply in_order_tail with x1.
    + now apply in_order_tail with x1.
    + now apply Permutation_cons_inv with x1.
    + assumption.
Qed.

Lemma stable_sort_perm_unique (l1 l2 : list A) :
  Permutation l1 l2 -> NoDup (map key l1) ->
  stable_sort key_before l1 = stable_sort key_before l2.
Proof.
  intros Hp Hnd. apply sorted_perm_unique.
  - apply stable_sort_ordered, key_before_asym.
  - apply stable_sort_ordered, key_before_asym.
  - apply Permutation_trans with l1; [apply stable_sort_perm|].
    apply Permutation_trans with l2; [assumption|].
    apply Permutation_sym, stable_sort_perm.
  - apply (Permutation_NoDup (l := map key l1)); [|assumption].
    apply Permutation_map, Permutation_sym, stable_sort_perm.
Qed.

End SortedByKey.

Lemma filter_perm {A} (p : A -> bool) (l1 l2 : list A) :
  Permutation l1 l2 -> Permutation (filter p l1) (filter p l2).
Proof.
  induction 1 as [|x l1 l2 _ IH|x y l|l1 l2 l3 _ IH1 _ IH2]; simpl.
  - constructor.
  - destruct (p x); [now constructor|assumption].
  - destruct (p x), (p y); try apply Permutation_refl. apply perm_swap.
  - now apply Permutation_trans with (filter p l2).
Qed.

(** X6: the personality vector of a user does not depend on the order in
    which the store returns the answers, as long as the user's answers bear
    distinct question ids; and a vector, when there is one, has ten
    entries. *)
Theorem personality_vector_any_storage_order (db1 db2 : DB) (uid : Z) :
  Permutation (personality_responses db1) (personality_responses db2) ->
  NoDup (map question_id
           (filter (fun r => pr_user_id r =? uid) (personality_responses db1))) ->
  _get_personality_vector db1 uid = _get_personality_vector db2 uid
  /\ (forall v, _get_personality_vector db1 uid = Some v -> length v = 10%nat).
Proof.
  intros Hp Hnd. split.
  - unfold _get_personality_vector.
    rewrite (stable_sort_perm_unique question_id
               (filter_perm (fun r => pr_user_id r =? uid) Hp) Hnd).
    reflexivity.
  - intros v Hv. now apply personality_vector_some in Hv.
Qed.

Lemma personality_vector_any_storage_order_witness :
  _get_personality_vector Sample.db_tie 1
  = _get_personality_vector Scenario.db_tie_shuffled 1.
Proof.
  refine (proj1 (personality_vector_any_storage_order
                   Sample.db_tie Scenario.db_tie_shuffled 1 _ _)).
  - change (Permutation
              (Sample.answers 1 Sample.threes
                 ++ Sample.answers 2 Sample.threes ++ Sample.answers 3 Sample.threes)
              (Sample.answers 3 Sample.threes
                 ++ rev (Sample.answers 1 Sample.threes)
                 ++ Sample.answers 2 Sample.threes)).
    apply Permutation_trans
      with (Sample.answers 3 Sample.threes
              ++ (Sample.answers 1 Sample.threes ++ Sample.answers 2 Sample.threes)).
    + rewrite app_assoc. apply Permutation_app_comm.
    + apply Permutation_app_head, Permutation_app_tail, Permutation_rev.
  - vm_compute.
    repeat (constructor; [simpl; intros H; repeat destruct H as [H|H];
                          try discriminate H; exact H|]).
    constructor.
Defined.

(** ** The shape of a generated selection *)

Lemma in_order_firstn {A} (before : A -> A -> bool) (n : nat) (l : list A) :
  in_order before l -> in_order before (firstn n l).
Proof.
  revert l. induction n as [|n IH]; intros l H; [exact I|].
  destruct l as [|x l]; [exact I|].
  simpl firstn. specialize (IH l).
  destruct l as [|y l]; [destruct n; exact I|].
  destruct H as [Hyx Hl].
  destruct n as [|n]; [exact I|].
  split; [exact Hyx|]. now apply IH.
Qed.

Lemma ranked_scores_in_order (top : list (User * float)) (i : Z) :
  scores_non_increasing top ->
  in_order (fun b a => (compatibility_score a <? compatibility_score b)%float)
           (map to_candidate (enumerate_from i top)).
Proof.
  revert i. induction top as [|[c s] top IH]; intros i H; [exact I|].
  specialize (IH (i + 1)).
  destruct top as [|[c' s'] top]; [exact I|].
  destruct H as [H1 H2]. split; [exact H1|now apply IH].
Qed.

Lemma ranked_positions (top : list (User * float)) (i : Z) :
  map rank_position (map to_candidate (enumerate_from i top))
  = map (fun k => i + Z.of_nat k + 1) (seq 0 (length top)).
Proof.
  revert i. induction top as [|[c s] top IH]; intros i; [reflexivity|].
  simpl. f_equal; [lia|].
  rewrite IH, <- seq_shift, map_map.
  apply map_ext. intros k. lia.
Qed.

Lemma ranked_ids (top : list (User * float)) (i : Z) :
  map user_id (map to_candidate (enumerate_from i top))
  = map (fun p => id (fst p)) top.
Proof.
  revert i. induction top as [|[c s] top IH]; intros i; [reflexivity|].
  simpl. f_equal. apply IH.
Qed.

(** X7: a generated selection has at most five candidates, ranked 1, 2, ...
    without a gap, and no candidate has a higher score than the one ranked
    just before. *)
Theorem daily_selection_ranked (db : DB) (uid : Z) (now : datetime) :
  (length (fst (generate_daily_selection db uid now)) <= 5)%nat
  /\ map rank_position (fst (generate_daily_selection db uid now))
     = map (fun k => Z.of_nat k + 1)
           (seq 0 (length (fst (generate_daily_selection db uid now))))
  /\ in_order (fun b a => (compatibility_score a <? compatibility_score b)%float)
              (fst (generate_daily_selection db uid now)).
Proof.
  split; [apply daily_selection_length|].
  destruct (get_user db uid) as [user|] eqn:Hu.
  - rewrite (generate_daily_selection_eq db uid now Hu).
    split.
    + rewrite ranked_positions, length_map, enumerate_from_length.
      apply map_ext. intros k. lia.
    + apply ranked_scores_in_order. unfold scores_non_increasing.
      apply in_order_firstn, sort_by_score_non_increasing.
  - unfold generate_daily_selection. rewrite Hu. simpl. split; [reflexivity|exact I].
Qed.

Lemma filter_negb_app_same {A} (p : A -> bool) (l added : list A) :
  (forall x, In x added -> p x = true) ->
  filter p (filter (fun x => negb (p x)) l ++ added) = added
  /\ filter (fun x => negb (p x)) (filter (fun x => negb (p x)) l ++ added)
     = filter (fun x => negb (p x)) l.
Proof.
  intros H. rewrite !filter_app. split.
  - rewrite (filter_none p), (filter_all p); [reflexivity|assumption|].
    intros x Hx. apply filter_In in Hx. destruct Hx as [_ Hx].
    now apply negb_true_iff in Hx.
  - rewrite (filter_none (fun x => negb (p x)) added).
    + rewrite app_nil_r. apply filter_all.
      intros x Hx. now apply filter_In in Hx.
    + intros x Hx. now rewrite (H x Hx).
Qed.

(** X8: generating a selection for a known user replaces the user's rows of
    the day: afterwards these are the rows of the returned candidates, one
    per candidate and in rank order (none when the result is empty); the
    rows of other users and of other days, the users, the answers and the
    choices are untouched. *)
Theorem regenerate_replaces_today
    (db : DB) (uid : Z) (now : datetime) (user : User) :
  get_user db uid = Some user ->
  filter (same_day_selection uid (date now))
         (daily_selections (snd (generate_daily_selection db uid now)))
  = map (selection_row uid (date now * seconds_per_day + 12 * 3600))
        (fst (generate_daily_selection db uid now))
  /\ filter (fun s => negb (same_day_selection uid (date now) s))
            (daily_selections (snd (generate_daily_selection db uid now)))
     = filter (fun s => negb (same_day_selection uid (date now) s))
              (daily_selections db)
  /\ users (snd (generate_daily_selection db uid now)) = users db
  /\ personality_responses (snd (generate_daily_selection db uid now))
     = personality_responses db
  /\ user_choices (snd (generate_daily_selection db uid now)) = user_choices db.
Proof.
  intros Hu.
  destruct (generate_daily_selection_shape db uid now Hu)
    as (top & dbs & (S1 & S2 & S3 & S4) & _ & Hgen).
  rewrite Hgen. simpl. rewrite date_noon, S3.
  destruct (filter_negb_app_same (same_day_selection uid (date now))
              (daily_selections db)
              (map (selection_row uid (date now * seconds_per_day + 12 * 3600))
                   (map to_candidate (enumerate_from 0 top)))) as [F1 F2].
  { intros x Hx. apply in_map_iff in Hx. destruct Hx as [c [<- _]].
    unfold same_day_selection, selection_row. simpl.
    now rewrite Z.eqb_refl, date_noon, Z.eqb_refl. }
  split; [exact F1|]. split; [exact F2|]. now repeat split.
Qed.

Lemma regenerate_replaces_today_witness :
  map candidate_user_id
      (filter (same_day_selection 1 (date 864000))
         (daily_selections
            (snd (generate_daily_selection
                    (snd (generate_daily_selection Sample.db_history 1 864000))
                    1 864500))))
  = map user_id
        (fst (generate_daily_selection
                (snd (generate_daily_selection Sample.db_history 1 864000))
                1 864500)).
Proof.
  pose proof (regenerate_replaces_today
                (snd (generate_daily_selection Sample.db_history 1 864000))
                1 864500 (user := Sample.alice) eq_refl) as [H _].
  change (date 864500) with (date 864000) in H.
  rewrite H, map_map. reflexivity.
Defined.

Lemma subseq_map {A B} (f : A -> B) (l1 l2 : list A) :
  subseq l1 l2 -> subseq (map f l1) (map f l2).
Proof. induction 1; simpl; now constructor. Qed.

Lemma subseq_NoDup {A} (l1 l2 : list A) : subseq l1 l2 -> NoDup l2 -> NoDup l1.
Proof.
  induction 1 as [|x l1 l2 Hs IH|x l1 l2 Hs IH]; intros Hnd.
  - constructor.
  - inversion Hnd; subst. now apply IH.
  - inversion Hnd as [|? ? Hx Hnd']; subst. constructor; [|now apply IH].
    intros Hin. apply Hx. eapply subseq_In; eassumption.
Qed.

Lemma filter_subseq {A} (p : A -> bool) (l : list A) : subseq (filter p l) l.
Proof.
  induction l as [|x l IH]; simpl; [constructor|].
  destruct (p x); [now apply subseq_keep|now apply subseq_skip].
Qed.

Lemma firstn_subseq {A} (n : nat) (l : list A) : subseq (firstn n l) l.
Proof.
  revert l. induction n as [|n IH]; intros l; [apply subseq_nil_l|].
  destruct l as [|x l]; simpl; [constructor|]. apply subseq_keep, IH.
Qed.

Lemma subseq_trans {A} (l1 l2 l3 : list A) :
  subseq l1 l2 -> subseq l2 l3 -> subseq l1 l3.
Proof.
  intros H12 H23. revert l1 H12.
  induction H23 as [|x l2 l3 _ IH|x l2 l3 _ IH]; intros l1 H12.
  - assumption.
  - constructor. now apply IH.
  - inversion H12; subst; constructor; now apply IH.
Qed.

Lemma potential_candidates_subseq
    (db : DB) (user : User) (excluded_ids : list Z) :
  subseq (_get_potential_candidates db user excluded_ids) (users db).
Proof.
  unfold _get_potential_candidates.
  eapply subseq_trans; [apply firstn_subseq|].
  destruct (truthy_float (location_latitude user)
            && truthy_float (location_longitude user)).
  - eapply subseq_trans; apply filter_subseq.
  - apply filter_subseq.
Qed.

(** X9: user ids being unique, no user appears twice in a generated
    selection. *)
Theorem daily_selection_no_repeat (db : DB) (uid : Z) (now : datetime) :
  NoDup (map id (users db)) ->
  NoDup (map user_id (fst (generate_daily_selection db uid now))).
Proof.
  intros Hnd.
  destruct (get_user db uid) as [user|] eqn:Hu.
  - rewrite (generate_daily_selection_eq db uid now Hu), ranked_ids.
    destruct (score_candidates_spec
                (_get_potential_candidates db user (_get_excluded_user_ids db uid now))
                db uid now []) as (added & E & Hsub & _ & _).
    rewrite E. simpl app.
    apply (subseq_NoDup (l2 := map (fun p => id (fst p)) (sort_by_score added))).
    + apply subseq_map, firstn_subseq.
    + apply (Permutation_NoDup (l := map (fun p => id (fst p)) added)).
      * apply Permutation_map, Permutation_sym, sort_by_score_perm.
      * rewrite <- (map_map fst id).
        apply (subseq_NoDup (l2 := map id (users db))); [|assumption].
        apply subseq_map.
        eapply subseq_trans; [exact Hsub|apply potential_candidates_subseq].
  - unfold generate_daily_selection. rewrite Hu. constructor.
Qed.

Lemma daily_selection_no_repeat_witness :
  NoDup (map user_id (fst (generate_daily_selection Sample.db_tie 1 1000))).
Proof.
  apply daily_selection_no_repeat.
  simpl. repeat constructor; simpl; intuition discriminate.
Defined.

(** ** The table of choices over time *)

Lemma update_first_none {A} (p : A -> bool) (f : A -> A) (l : list A) :
  first p l = None -> update_first p f l = l.
Proof.
  unfold first. induction l as [|x l IH]; simpl; [reflexivity|].
  destruct (p x); [discriminate|]. intros H. now rewrite IH.
Qed.


(** What an accepted choice writes. *)
Lemma make_user_choice_rows
    (db : DB) (uid chosen : Z) (now : datetime) (row : UserChoice) (db' : DB) :
  make_user_choice db uid chosen now = (inl row, db') ->
  choice_key row = (uid, chosen, now)
  /\ db' = set_user_choices db
             (update_first (is_reverse_choice uid chosen) set_is_match
                           (user_choices db) ++ [row])
  /\ exists user, get_user db uid = Some user
                  /\ today_choices db uid now < max_choices user.
Proof.
  unfold make_user_choice.
  destruct (get_user db uid) as [user|]; [|discriminate].
  destruct (get_user db chosen) as [cu|]; [|discriminate].
  destruct (Z.geb_spec (today_choices db uid now) (max_choices user));
    [discriminate|].
  destruct (first (is_reverse_choice uid chosen) (user_choices db)) eqn:Hf;
    intros E; injection E as <- <-.
  - split; [reflexivity|]. split; [reflexivity|]. exists user. split; [reflexivity|lia].
  - rewrite (update_first_none _ _ _ Hf).
    split; [reflexivity|]. split; [reflexivity|]. exists user. split; [reflexivity|lia].
Qed.

Lemma update_first_set_is_match_rows (p : UserChoice -> bool) (l : list UserChoice) :
  Forall2 (fun o n => choice_key n = choice_key o
                      /\ (is_match o = true -> is_match n = true))
          l (update_first p set_is_match l).
Proof.
  induction l as [|c l IH]; simpl; [constructor|].
  destruct (p c).
  - constructor; [split; [reflexivity|reflexivity]|].
    clear IH. induction l as [|d l IH']; constructor; [now split|exact IH'].
  - constructor; [now split|exact IH].
Qed.

(** X10: whatever its answer, [make_user_choice] touches the table of choices
    only, where it adds one row at most and removes none: every row that was
    there keeps its place, its chooser, its chosen user and its date, and a
    row that was matched stays matched. *)
Theorem choice_rows_only_grow (db : DB) (uid chosen : Z) (now : datetime) :
  users (snd (make_user_choice db uid chosen now)) = users db
  /\ personality_responses (snd (make_user_choice db uid chosen now))
     = personality_responses db
  /\ daily_selections (snd (make_user_choice db uid chosen now))
     = daily_selections db
  /\ compatibility_cache (snd (make_user_choice db uid chosen now))
     = compatibility_cache db
  /\ (length (user_choices (snd (make_user_choice db uid chosen now)))
      <= S (length (user_choices db)))%nat
  /\ Forall2 (fun o n => choice_key n = choice_key o
                         /\ (is_match o = true -> is_match n = true))
             (user_choices db)
             (firstn (length (user_choices db))
                     (user_choices (snd (make_user_choice db uid chosen now)))).
Proof.
  destruct (make_user_choice db uid chosen now) as [[row|e] db'] eqn:E.
  - apply make_user_choice_rows in E. destruct E as (_ & -> & _). simpl.
    repeat (split; [reflexivity|]).
    split.
    + rewrite length_app, update_first_length. simpl. lia.
    + rewrite <- (update_first_length (is_reverse_choice uid chosen) set_is_match
                                      (user_choices db)).
      rewrite firstn_app, firstn_all, Nat.sub_diag. simpl. rewrite app_nil_r.
      apply update_first_set_is_match_rows.
  - pose proof (make_user_choice_refusal_keeps_db db uid chosen now (e := e)) as H.
    rewrite E in H. simpl in H. rewrite (H eq_refl). simpl.
    repeat (split; [reflexivity|]).
    split; [lia|].
    rewrite firstn_all.
    induction (user_choices db) as [|c l IH]; constructor; [now split|exact IH].
Qed.

Lemma today_choices_after_choice
    (db : DB) (uid chosen : Z) (now : datetime) (row : UserChoice) (db' : DB)
    (u : Z) (t : datetime) :
  make_user_choice db uid chosen now = (inl row, db') ->
  today_choices db' u t
  = today_choices db u t + (if counts_today u t row then 1 else 0).
Proof.
  intros E. apply make_user_choice_rows in E. destruct E as (_ & -> & _).
  unfold today_choices. simpl. rewrite filter_app, length_app.
  rewrite update_first_set_is_match_counts by reflexivity.
  simpl. destruct (counts_today u t row); simpl; lia.
Qed.

Lemma make_user_choice_within_quota
    (db : DB) (uid chosen : Z) (now t : datetime) :
  within_quota db t -> date now = date t ->
  within_quota (snd (make_user_choice db uid chosen now)) t.
Proof.
  intros Hq Hday.
  destruct (make_user_choice db uid chosen now) as [[row|e] db'] eqn:E.
  - simpl. intros u user' Hu.
    rewrite (@today_choices_after_choice db uid chosen now row db' u t E).
    pose proof (make_user_choice_rows _ _ _ _ E) as (Hkey & -> & user & Hget & Hlt).
    unfold get_user in Hu. simpl in Hu. fold (get_user db u) in Hu.
    specialize (Hq u user' Hu).
    unfold counts_today. unfold choice_key in Hkey.
    injection Hkey as K1 K2 K3. rewrite K1.
    destruct (Z.eqb_spec uid u) as [->|Hne]; simpl; [|lia].
    rewrite Hget in Hu. injection Hu as <-.
    assert (Ht : today_choices db u t = today_choices db u now)
      by (apply today_choices_same_day; congruence).
    destruct (choice_date row >=? date t * seconds_per_day); lia.
  - pose proof (make_user_choice_refusal_keeps_db db uid chosen now (e := e)) as H.
    rewrite E in H. simpl in *. now rewrite (H eq_refl).
Qed.

(** X11: the daily limit is an invariant of the day: if every user is within
    the limit on some day, every user still is after any series of choice
    requests made that day, by whomever and whatever their answers. *)
Theorem quota_kept_over_a_day (calls : list ChoiceCall) (db : DB) (t : datetime) :
  within_quota db t ->
  Forall (fun c => date (call_time c) = date t) calls ->
  within_quota (make_user_choices db calls) t.
Proof.
  revert db. induction calls as [|c calls IH]; intros db Hq Hday; [exact Hq|].
  inversion Hday as [|? ? Hc Hrest]; subst.
  simpl. apply IH; [|exact Hrest].
  now apply make_user_choice_within_quota.
Qed.

Lemma quota_kept_over_a_day_witness :
  within_quota
    (make_user_choices Sample.db_standard
       [mkChoiceCall 1 2 1000; mkChoiceCall 1 3 2000; mkChoiceCall 2 1 3000])
    0.
Proof.
  apply quota_kept_over_a_day.
  - intros u user _. unfold today_choices, max_choices. simpl.
    destruct (is_premium user); lia.
  - repeat constructor.
Defined.





(** ** The history of choices *)

Lemma latest_first_head (l : list UserChoice) (x y : UserChoice) :
  in_order (fun y x => choice_date x <? choice_date y) (x :: l) ->
  In y l -> choice_date y <= choice_date x.
Proof.
  revert x. induction l as [|z l IH]; intros x Hs Hy; [destruct Hy|].
  destruct Hs as [Hzx Hs].
  assert (choice_date z <= choice_date x) by (now apply Z.ltb_ge in Hzx).
  destruct Hy as [->|Hy]; [assumption|].
  specialize (IH z Hs Hy). lia.
Qed.

Lemma latest_first_cut (n : nat) (l : list UserChoice) (x y : UserChoice) :
  in_order (fun y x => choice_date x <? choice_date y) l ->
  In x (firstn n l) -> In y (skipn n l) -> choice_date y <= choice_date x.
Proof.
  revert l. induction n as [|n IH]; intros l Hs Hx Hy; [destruct Hx|].
  destruct l as [|z l]; [destruct Hx|].
  simpl in Hx, Hy. destruct Hx as [->|Hx].
  - apply (latest_first_head l); [assumption|]. 
    rewrite <- (firstn_skipn n l). apply in_or_app. now right.
  - apply (IH l); try assumption.
    destruct l as [|w l]; [exact I|]. now destruct Hs.
Qed.

(** X13: for a known user and a limit of 0 or more, the history holds at
    most [limit] rows, all of them rows of that user, the latest first; a
    row of the user that is left out is not more recent than any row
    listed, and nothing is left out when the user has [limit] rows or
    fewer. *)
Theorem choice_history_latest_first
    (db : DB) (uid : Z) (limit : Z) (l : list UserChoice) :
  0 <= limit ->
  get_user_choices db uid limit = inl l ->
  Z.of_nat (length l) <= limit
  /\ (forall c, In c l -> In c (user_choices db) /\ uc_user_id c = uid)
  /\ in_order (fun y x => choice_date x <? choice_date y) l
  /\ (forall c c', In c l -> In c' (user_choices db) -> uc_user_id c' = uid ->
                   ~ In c' l -> choice_date c' <= choice_date c)
  /\ (Z.of_nat (length (filter (fun c => uc_user_id c =? uid) (user_choices db)))
      <= limit ->
      Permutation l (filter (fun c => uc_user_id c =? uid) (user_choices db))).
Proof.
  intros Hpos. unfold get_user_choices.
  destruct (get_user db uid); [|discriminate].
  intros E. injection E as <-.
  set (mine := filter (fun c => uc_user_id c =? uid) (user_choices db)).
  set (sorted := stable_sort (fun y x => choice_date x <? choice_date y) mine).
  assert (Hs : in_order (fun y x => choice_date x <? choice_date y) sorted).
  { apply stable_sort_ordered. intros x y H.
    apply Z.ltb_lt in H. apply Z.ltb_ge. lia. }
  split.
  { pose proof (firstn_le_length (Z.to_nat limit) sorted). lia. }
  split.
  { intros c Hc. apply In_firstn, stable_sort_In in Hc.
    apply filter_In in Hc. destruct Hc as [Hc Hu].
    split; [assumption|now apply Z.eqb_eq]. }
  split; [now apply in_order_firstn|].
  split.
  { intros c c' Hc Hc' Hu Hout.
    assert (Hin : In c' sorted).
    { apply stable_sort_In, filter_In. split; [assumption|now apply Z.eqb_eq]. }
    rewrite <- (firstn_skipn (Z.to_nat limit) sorted) in Hin.
    apply in_app_or in Hin. destruct Hin as [Hin|Hin]; [contradiction|].
    now apply (latest_first_cut (Z.to_nat limit) sorted). }
  intros Hall.
  rewrite firstn_all2.
  - apply stable_sort_perm.
  - unfold sorted. rewrite stable_sort_length. fold mine. lia.
Qed.

Lemma choice_history_latest_first_witness :
  get_user_choices Scenario.db_choices 1 2
  = inl [mkUserChoice 1 4 90000 false; mkUserChoice 1 3 5000 false]
  /\ Z.of_nat 2 <= 2.
Proof.
  split; [reflexivity|].
  refine (proj1 (choice_history_latest_first Scenario.db_choices 1
                   (limit := 2) _ eq_refl)).
  lia.
Defined.

(** ** A change of subscription and the daily limit *)

Lemma get_user_after_update
    (us : list User) (uid : Z) (value : bool) (x : Z) :
  first (fun u => id u =? x)
        (update_first (fun u => id u =? uid) (set_is_premium value) us)
  = match first (fun u => id u =? x) us with
    | Some u => if x =? uid then Some (set_is_premium value u) else Some u
    | None => None
    end.
Proof.
  unfold first. induction us as [|u us IH]; simpl; [reflexivity|].
  destruct (Z.eqb_spec (id u) uid) as [Eu|Eu]; simpl.
  - destruct (Z.eqb_spec (id u) x) as [Ex|Ex].
    + replace (x =? uid) with true; [reflexivity|].
      symmetry. apply Z.eqb_eq. congruence.
    + destruct (find (fun u0 => id u0 =? x) us) as [w|] eqn:Hw; [|reflexivity].
      destruct (Z.eqb_spec x uid) as [Exu|_]; [congruence|reflexivity].
  - destruct (Z.eqb_spec (id u) x) as [Ex|Ex].
    + destruct (Z.eqb_spec x uid) as [Exu|_]; [congruence|reflexivity].
    + exact IH.
Qed.

(** X14: a change of subscription takes effect on the limit at once, the
    choices of the day being counted as before: a known user with fewer than
    three choices today can choose again as soon as the subscription is set
    to premium, and one with a choice today or more is refused as soon as it
    is set back to standard. *)
Theorem subscription_change_moves_quota
    (db : DB) (uid chosen : Z) (now : datetime) (user : User) :
  get_user db uid = Some user ->
  get_user db chosen <> None ->
  (today_choices db uid now < 3 ->
   exists row db',
     make_user_choice (snd (update_premium_status db uid true)) uid chosen now
     = (inl row, db'))
  /\ (today_choices db uid now >= 1 ->
      make_user_choice (snd (update_premium_status db uid false)) uid chosen now
      = (inr QuotaExceeded, snd (update_premium_status db uid false))).
Proof.
  intros Hu Hc.
  assert (Hget : forall value x,
             get_user (snd (update_premium_status db uid value)) x
             = match get_user db x with
               | Some u => if x =? uid then Some (set_is_premium value u) else Some u
               | None => None
               end).
  { intros value x. unfold update_premium_status. rewrite Hu. simpl.
    unfold get_user. simpl. apply get_user_after_update. }
  assert (Hcount : forall value,
             today_choices (snd (update_premium_status db uid value)) uid now
             = today_choices db uid now).
  { intros value. unfold update_premium_status. now rewrite Hu. }
  destruct (get_user db chosen) as [cu|] eqn:Hcu; [|congruence].
  split; intros Hq.
  - destruct (make_user_choice_accepted
                (snd (update_premium_status db uid true)) uid chosen now
                (user := set_is_premium true user)
                (chosen_user := if chosen =? uid then set_is_premium true cu else cu))
      as (row & db' & E & _).
    + now rewrite Hget, Hu, Z.eqb_refl.
    + rewrite Hget, Hcu. now destruct (chosen =? uid).
    + rewrite Hcount. simpl. exact Hq.
    + now exists row, db'.
  - apply make_user_choice_refused
      with (user := set_is_premium false user)
           (chosen_user := if chosen =? uid then set_is_premium false cu else cu).
    + now rewrite Hget, Hu, Z.eqb_refl.
    + rewrite Hget, Hcu. now destruct (chosen =? uid).
    + rewrite Hcount. simpl. exact Hq.
Qed.

Lemma subscription_change_moves_quota_witness :
  exists row db',
    make_user_choice
      (snd (update_premium_status
              (snd (make_user_choice Sample.db_standard 1 2 1000)) 1 true))
      1 3 2000
    = (inl row, db').
Proof.
  refine (proj1 (subscription_change_moves_quota
                   (snd (make_user_choice Sample.db_standard 1 2 1000))
                   1 3 2000 (user := Sample.alice) eq_refl _) _).
  - vm_compute. discriminate.
  - vm_compute. reflexivity.
Defined.

(** ** Unknown users *)

(** X15: each endpoint of [matching.py] answers NotFound exactly when a user
    it is asked about does not exist ([make_user_choice] and
    [calculate_compatibility] look up two), and an endpoint that answers with
    an error, whichever it is, has written nothing. *)
Theorem not_found_exactly_when_missing (db : DB) (now : datetime) :
  (forall uid,
      (fst (get_daily_selection db uid now) = inr NotFound
       <-> get_user db uid = None)
      /\ (fst (generate_new_selection db uid now) = inr NotFound
          <-> get_user db uid = None)
      /\ (forall limit, get_user_choices db uid limit = inr NotFound
                        <-> get_user db uid = None))
  /\ (forall u1 u2,
        (fst (calculate_compatibility db u1 u2 now) = inr NotFound
         <-> get_user db u1 = None \/ get_user db u2 = None)
        /\ (fst (make_user_choice db u1 u2 now) = inr NotFound
            <-> get_user db u1 = None \/ get_user db u2 = None))
  /\ (forall request,
        fst (get_matching_candidates db request now) = inr NotFound
        <-> get_user db (mr_user_id request) = None)
  /\ (forall uid e, fst (get_daily_selection db uid now) = inr e ->
                    snd (get_daily_selection db uid now) = db)
  /\ (forall uid e, fst (generate_new_selection db uid now) = inr e ->
                    snd (generate_new_selection db uid now) = db)
  /\ (forall u1 u2 e, fst (calculate_compatibility db u1 u2 now) = inr e ->
                      snd (calculate_compatibility db u1 u2 now) = db)
  /\ (forall u1 u2 e, fst (make_user_choice db u1 u2 now) = inr e ->
                      snd (make_user_choice db u1 u2 now) = db)
  /\ (forall request e, fst (get_matching_candidates db request now) = inr e ->
                        snd (get_matching_candidates db request now) = db).
Proof.
  split.
  { intros uid.
    unfold get_daily_selection, generate_new_selection, get_user_choices.
    destruct (get_user db uid) as [user|].
    - destruct (get_today_selection db uid now),
               (generate_daily_selection db uid now); simpl.
      repeat split; try discriminate; intros; discriminate.
    - simpl. repeat split; reflexivity. }
  split.
  { intros u1 u2. unfold calculate_compatibility, make_user_choice.
    destruct (get_user db u1) as [x1|], (get_user db u2) as [x2|]; simpl.
    - split.
      + destruct (calculate_compatibility_score db u1 u2 now). simpl.
        split; [discriminate|intros [H|H]; discriminate].
      + destruct (today_choices db u1 now >=? max_choices x1); simpl.
        * split; [discriminate|intros [H|H]; discriminate].
        * destruct (first (is_reverse_choice u1 u2) (user_choices db)); simpl;
            (split; [discriminate|intros [H|H]; discriminate]).
    - split; (split; [now right|reflexivity]).
    - split; (split; [now left|reflexivity]).
    - split; (split; [now left|reflexivity]). }
  split.
  { intros request. unfold get_matching_candidates.
    destruct (get_user db (mr_user_id request)) as [user|].
    - destruct (score_candidates db _ _ now []). simpl.
      split; discriminate.
    - simpl. split; reflexivity. }
  split.
  { intros uid e. unfold get_daily_selection.
    destruct (get_user db uid); [|reflexivity].
    destruct (get_today_selection db uid now). discriminate. }
  split.
  { intros uid e. unfold generate_new_selection.
    destruct (get_user db uid); [|reflexivity].
    destruct (generate_daily_selection db uid now). discriminate. }
  split.
  { intros u1 u2 e. unfold calculate_compatibility.
    destruct (get_user db u1), (get_user db u2); try reflexivity.
    destruct (calculate_compatibility_score db u1 u2 now). discriminate. }
  split.
  { intros u1 u2 e. apply make_user_choice_refusal_keeps_db. }
  intros request e. unfold get_matching_candidates.
  destruct (get_user db (mr_user_id request)); [|reflexivity].
  destruct (score_candidates db _ _ now []). discriminate.
Qed.

(** ** The exclusion list *)

(** X16: the exclusion list of a user has no repeated id and holds exactly
    the user, the users the user chose after [now] minus 30 days and the
    candidates of the user's selections dated after [now] minus 7 days; a
    choice or a selection dated exactly 30 or 7 days before [now], or
    earlier, excludes nobody. *)
Theorem excluded_ids_exact (db : DB) (uid : Z) (now : datetime) :
  NoDup (_get_excluded_user_ids db uid now)
  /\ (forall x,
        In x (_get_excluded_user_ids db uid now)
        <-> x = uid
            \/ (exists c, In c (user_choices db) /\ uc_user_id c = uid
                          /\ now - 30 * 86400 < choice_date c
                          /\ chosen_user_id c = x)
            \/ (exists s, In s (daily_selections db) /\ ds_user_id s = uid
                          /\ now - 7 * 86400 < selection_date s
                          /\ candidate_user_id s = x)).
Proof.
  split; [apply NoDup_nodup|].
  intros x. rewrite excluded_ids_In.
  unfold chosen_recently, selected_recently, timedelta_days, seconds_per_day.
  split.
  - intros [H|[[c (H1 & H2 & H3 & H4)]|[s (H1 & H2 & H3 & H4)]]].
    + now left.
    + right; left. exists c. repeat split; auto; lia.
    + right; right. exists s. repeat split; auto; lia.
  - intros [H|[[c (H1 & H2 & H3 & H4)]|[s (H1 & H2 & H3 & H4)]]].
    + now left.
    + right; left. exists c. repeat split; auto; lia.
    + right; right. exists s. repeat split; auto; lia.
Qed.

(** ** The ad-hoc ranking *)





(** ** Submitting the questionnaire *)

Lemma add_responses_some
    (uid : Z) (rs : list PersonalityResponseCreate)
    (acc out : list PersonalityResponse) :
  add_responses uid rs acc = Some out ->
  out = acc ++ map (response_row uid) rs /\ Forall valid_response rs.
Proof.
  revert acc. induction rs as [|r rs IH]; intros acc; simpl.
  - intros E. injection E as <-. rewrite app_nil_r. split; [reflexivity|constructor].
  - destruct (Z.leb_spec 1 (prc_question_id r)),
             (Z.leb_spec (prc_question_id r) 10); simpl; try discriminate.
    destruct (Z.leb_spec 1 (prc_response_value r)),
             (Z.leb_spec (prc_response_value r) 5); simpl; try discriminate.
    intros E. destruct (IH _ E) as [-> Hv].
    rewrite <- app_assoc. split; [reflexivity|].
    constructor; [unfold valid_response; lia|exact Hv].
Qed.

Lemma add_responses_valid
    (uid : Z) (rs : list PersonalityResponseCreate) (acc : list PersonalityResponse) :
  Forall valid_response rs ->
  add_responses uid rs acc = Some (acc ++ map (response_row uid) rs).
Proof.
  intros Hv. revert acc. induction Hv as [|r rs [Hq Hval] _ IH]; intros acc; simpl.
  - now rewrite app_nil_r.
  - destruct (Z.leb_spec 1 (prc_question_id r)),
             (Z.leb_spec (prc_question_id r) 10); simpl; try lia.
    destruct (Z.leb_spec 1 (prc_response_value r)),
             (Z.leb_spec (prc_response_value r) 5); simpl; try lia.
    rewrite IH, <- app_assoc. reflexivity.
Qed.

Lemma filter_filter_implied {A} (p q : A -> bool) (l : list A) :
  (forall x, p x = true -> q x = true) -> filter p (filter q l) = filter p l.
Proof.
  intros H. induction l as [|x l IH]; simpl; [reflexivity|].
  destruct (q x) eqn:Hq; simpl.
  - now rewrite IH.
  - destruct (p x) eqn:Hp; [|exact IH].
    rewrite (H x Hp) in Hq. discriminate.
Qed.

(** X18: an accepted questionnaire replaces the answers of the user
    wholesale: the user's stored rows are the ten submitted ones, the
    personality vector exists and is made of the submitted values by
    ascending question id (the values as submitted, when the questions come
    in ascending order); the vectors of the other users and the other tables
    do not change. *)
Theorem questionnaire_round_trip
    (db : DB) (uid : Z) (rs : list PersonalityResponseCreate)
    (added : list PersonalityResponse) (db' : DB) :
  submit_personality_questionnaire db uid rs = (inl added, db') ->
  added = map (response_row uid) rs
  /\ filter (fun r => pr_user_id r =? uid) (personality_responses db') = added
  /\ _get_personality_vector db' uid
     = Some (map (fun r => float_of_int (response_value r))
                 (stable_sort (fun r1 r2 => question_id r1 <? question_id r2) added))
  /\ (in_order (fun r1 r2 => prc_question_id r1 <? prc_question_id r2) rs ->
      _get_personality_vector db' uid
      = Some (map (fun r => float_of_int (prc_response_value r)) rs))
  /\ (forall u, u <> uid ->
                _get_personality_vector db' u = _get_personality_vector db u)
  /\ users db' = users db /\ daily_selections db' = daily_selections db
  /\ user_choices db' = user_choices db
  /\ compatibility_cache db' = compatibility_cache db.
Proof.
  unfold submit_personality_questionnaire.
  destruct (get_user db uid) as [user|]; [|discriminate].
  destruct (Nat.eqb_spec (length rs) 10) as [Hlen|]; simpl; [|discriminate].
  destruct (add_responses uid rs []) as [out|] eqn:Hadd; [|discriminate].
  intros E. injection E as <- <-.
  apply add_responses_some in Hadd. destruct Hadd as [-> _]. simpl app.
  assert (Hmine : filter (fun r => pr_user_id r =? uid)
                    (filter (fun r => negb (pr_user_id r =? uid))
                            (personality_responses db)
                     ++ map (response_row uid) rs)
                  = map (response_row uid) rs).
  { rewrite filter_app, filter_none, filter_all; [reflexivity| |].
    - intros x Hx. apply in_map_iff in Hx. destruct Hx as [r [<- _]].
      simpl. apply Z.eqb_refl.
    - intros x Hx. apply filter_In in Hx. destruct Hx as [_ Hx].
      now apply negb_true_iff in Hx. }
  assert (Hvec : _get_personality_vector
                   (set_personality_responses db
                      (filter (fun r => negb (pr_user_id r =? uid))
                              (personality_responses db)
                       ++ map (response_row uid) rs)) uid
                 = Some (map (fun r => float_of_int (response_value r))
                             (stable_sort
                                (fun r1 r2 => question_id r1 <? question_id r2)
                                (map (response_row uid) rs)))).
  { unfold _get_personality_vector. simpl personality_responses.
    rewrite Hmine, stable_sort_length, length_map, Hlen. reflexivity. }
  split; [reflexivity|]. split; [exact Hmine|]. split; [exact Hvec|].
  split.
  { intros Hord. rewrite Hvec, stable_sort_in_order.
    - now rewrite map_map.
    - clear - Hord. induction rs as [|r rs IH]; [exact I|].
      destruct rs as [|r' rs]; [exact I|].
      destruct Hord as [H1 H2]. split; [exact H1|now apply IH]. }
  split; [|now repeat split].
  intros u Hu. unfold _get_personality_vector. simpl personality_responses.
  rewrite filter_app.
  rewrite (filter_none (fun r => pr_user_id r =? u) (map (response_row uid) rs)).
  - rewrite app_nil_r, filter_filter_implied; [reflexivity|].
    intros x Hx. apply Z.eqb_eq in Hx. apply negb_true_iff, Z.eqb_neq. congruence.
  - intros x Hx. apply in_map_iff in Hx. destruct Hx as [r [<- _]].
    simpl. apply Z.eqb_neq. congruence.
Qed.

Lemma questionnaire_round_trip_witness :
  _get_personality_vector
    (snd (submit_personality_questionnaire Scenario.db_incomplete 1
            Scenario.questionnaire)) 1
  = Some (Sample.ten 3).
Proof.
  destruct (submit_personality_questionnaire Scenario.db_incomplete 1
              Scenario.questionnaire) as [[added|e] db'] eqn:E.
  - destruct (questionnaire_round_trip _ _ _ E) as (_ & _ & _ & H & _).
    simpl snd. rewrite H; [reflexivity|].
    simpl. repeat split; reflexivity.
  - vm_compute in E. discriminate E.
Defined.

(** X19: a questionnaire is accepted exactly when the user exists, the
    responses are ten and each has a question id from 1 to 10 and a value
    from 1 to 5; nothing requires the ten question ids to differ.  A
    questionnaire that is refused changes nothing, and it is refused with
    NotFound exactly when the user does not exist. *)
Theorem questionnaire_accepted_exactly_when_valid
    (db : DB) (uid : Z) (rs : list PersonalityResponseCreate) :
  ((exists added db',
       submit_personality_questionnaire db uid rs = (inl added, db'))
   <-> get_user db uid <> None /\ length rs = 10%nat /\ Forall valid_response rs)
  /\ (forall e, fst (submit_personality_questionnaire db uid rs) = inr e ->
                snd (submit_personality_questionnaire db uid rs) = db)
  /\ (fst (submit_personality_questionnaire db uid rs) = inr NotFound
      <-> get_user db uid = None).
Proof.
  unfold submit_personality_questionnaire.
  destruct (get_user db uid) as [user|].
  - destruct (Nat.eqb_spec (length rs) 10) as [Hlen|Hlen]; simpl.
    + destruct (add_responses uid rs []) as [out|] eqn:Hadd.
      * apply add_responses_some in Hadd. destruct Hadd as [_ Hv].
        split; [|split].
        -- split; [intros _; repeat split; [discriminate|assumption|assumption]
                  |intros _; eexists _, _; reflexivity].
        -- discriminate.
        -- split; discriminate.
      * split; [|split].
        -- split; [intros (a & d & E); discriminate|].
           intros (_ & _ & Hv).
           rewrite (add_responses_valid uid [] Hv) in Hadd. discriminate.
        -- reflexivity.
        -- split; discriminate.
    + split; [|split].
      * split; [intros (a & d & E); discriminate|]. intros (_ & H & _). contradiction.
      * reflexivity.
      * split; discriminate.
  - simpl. split; [|split].
    + split; [intros (a & d & E); discriminate|]. intros (H & _). now contradiction H.
    + reflexivity.
    + split; reflexivity.
Qed.

(** ** The stored selection of the day *)

Lemma filter_map_ext {A B} (f g : A -> option B) (l : list A) :
  (forall x, f x = g x) -> filter_map f l = filter_map g l.
Proof.
  intros H. induction l as [|x l IH]; simpl; [reflexivity|].
  rewrite H, IH. reflexivity.
Qed.

(** X20: once rows are stored for a user and a day, what
    [get_today_selection] returns that day depends on the selection rows and
    on the users only, and the call writes nothing: choices made, answers
    submitted or scores cached in the meantime do not change the list. *)
Theorem stored_selection_is_frozen
    (db1 db2 : DB) (uid : Z) (now1 now2 : datetime) :
  today_selections db1 uid now1 <> [] ->
  daily_selections db2 = daily_selections db1 ->
  users db2 = users db1 ->
  date now2 = date now1 ->
  fst (get_today_selection db2 uid now2) = fst (get_today_selection db1 uid now1)
  /\ snd (get_today_selection db2 uid now2) = db2.
Proof.
  intros Hne Hsel Hus Hday.
  assert (Hrows : today_selections db2 uid now2 = today_selections db1 uid now1)
    by (unfold today_selections; now rewrite Hsel, Hday).
  unfold get_today_selection. rewrite Hrows.
  destruct (today_selections db1 uid now1) as [|s0 rows]; [now contradiction Hne|].
  cbn [fst snd]. split; [|reflexivity].
  apply filter_map_ext. intros s.
  unfold stored_candidate, get_user. now rewrite Hus.
Qed.

Lemma stored_selection_is_frozen_witness :
  map user_id
      (fst (get_today_selection
              (snd (make_user_choice
                      (snd (get_today_selection Sample.db_tie 1 1000)) 1 3 2000))
              1 3000))
  = [3; 2].
Proof.
  destruct (@stored_selection_is_frozen
              (snd (get_today_selection Sample.db_tie 1 1000))
              (snd (make_user_choice
                      (snd (get_today_selection Sample.db_tie 1 1000)) 1 3 2000))
              1 1000 3000) as [H _].
  - vm_compute. discriminate.
  - reflexivity.
  - reflexivity.
  - reflexivity.
  - rewrite H. vm_compute. reflexivity.
Defined.

(** ** The cache invariant under the operations of the service *)

Lemma score_candidates_canonical
    (candidates : list User) (db : DB) (uid : Z) (now : datetime)
    (acc : list (User * float)) :
  canonical_cache (compatibility_cache db) ->
  canonical_cache
    (compatibility_cache (snd (score_candidates db uid candidates now acc))).
Proof.
  revert db acc. induction candidates as [|c rest IH]; intros db acc H; simpl;
    [exact H|].
  pose proof (calculate_compatibility_score_canonical db uid (id c) now H) as Hc.
  destruct (calculate_compatibility_score db uid (id c) now) as [score db'].
  simpl in Hc.
  destruct (settings.COMPATIBILITY_THRESHOLD <=? score)%float; now apply IH.
Qed.

(** X21: a cache in which every row is keyed (min, max) and no pair has two
    rows stays so through every operation of the service: generating or
    reading the daily selection, the ad-hoc ranking, a score request and the
    recording of a choice. *)
Theorem operations_keep_cache_canonical (db : DB) (now : datetime) :
  canonical_cache (compatibility_cache db) ->
  (forall uid,
      canonical_cache
        (compatibility_cache (snd (generate_daily_selection db uid now)))
      /\ canonical_cache
           (compatibility_cache (snd (get_today_selection db uid now))))
  /\ (forall request,
        canonical_cache
          (compatibility_cache (snd (get_matching_candidates db request now))))
  /\ (forall u1 u2,
        canonical_cache
          (compatibility_cache (snd (calculate_compatibility db u1 u2 now)))
        /\ canonical_cache
             (compatibility_cache (snd (make_user_choice db u1 u2 now)))).
Proof.
  intros H.
  assert (Hgen : forall uid,
             canonical_cache
               (compatibility_cache (snd (generate_daily_selection db uid now)))).
  { intros uid. unfold generate_daily_selection.
    destruct (get_user db uid) as [user|]; [|exact H].
    pose proof (score_candidates_canonical
                  (_get_potential_candidates db user (_get_excluded_user_ids db uid now))
                  db uid now [] H) as Hs.
    destruct (score_candidates db uid _ now []) as [scored db1].
    exact Hs. }
  split; [|split].
  - intros uid. split; [apply Hgen|].
    unfold get_today_selection.
    destruct (today_selections db uid now); [apply Hgen|exact H].
  - intros request. unfold get_matching_candidates.
    destruct (get_user db (mr_user_id request)) as [user|]; [|exact H].
    match goal with
    | |- context [score_candidates db ?u ?cs now []] =>
        pose proof (score_candidates_canonical cs db u now [] H) as Hs;
        destruct (score_candidates db u cs now []) as [scored db1]
    end.
    exact Hs.
  - intros u1 u2. split.
    + unfold calculate_compatibility.
      destruct (get_user db u1), (get_user db u2); try exact H.
      pose proof (calculate_compatibility_score_canonical db u1 u2 now H) as Hs.
      destruct (calculate_compatibility_score db u1 u2 now). exact Hs.
    + unfold make_user_choice.
      destruct (get_user db u1) as [x1|]; [|exact H].
      destruct (get_user db u2) as [x2|]; [|exact H].
      destruct (today_choices db u1 now >=? max_choices x1); [exact H|].
      destruct (first (is_reverse_choice u1 u2) (user_choices db)); exact H.
Qed.

Lemma operations_keep_cache_canonical_witness :
  canonical_cache
    (compatibility_cache (snd (generate_daily_selection Sample.db_tie 1 1000))).
Proof.
  exact (proj1 (proj1 (operations_keep_cache_canonical Sample.db_tie 1000
                         empty_cache_canonical) 1)).
Defined.

(** ** Regenerating a selection *)

(** X22: a candidate of a generated selection is not offered again by the
    next generation for the same user, as long as that one takes place less
    than seven days after noon of the day of the first; in particular a
    forced regeneration on the same day returns none of the candidates it
    replaces. *)
Theorem regeneration_offers_new_candidates
    (db : DB) (uid : Z) (now now' : datetime)
    (c c' : DailySelectionCandidate) :
  now' - timedelta_days 7 < date now * seconds_per_day + 12 * 3600 ->
  In c (fst (generate_daily_selection db uid now)) ->
  In c' (fst (generate_daily_selection
                (snd (generate_daily_selection db uid now)) uid now')) ->
  user_id c' <> user_id c.
Proof.
  intros Ht Hc Hc' Heq.
  apply generate_daily_selection_In in Hc'.
  destruct Hc' as (user' & cand & _ & Hcand & Hid & _).
  apply potential_candidates_eligible in Hcand.
  destruct Hcand as (_ & Hex & _). apply Hex.
  apply excluded_ids_In. right; right.
  destruct (get_user db uid) as [user|] eqn:Hu.
  - destruct (generate_daily_selection_shape db uid now Hu)
      as (top & dbs & _ & _ & Hgen).
    rewrite Hgen in *. simpl in Hc. simpl snd.
    exists (selection_row uid (date now * seconds_per_day + 12 * 3600) c).
    split; [|split; [reflexivity|split; [|simpl; congruence]]];
      [|unfold timedelta_days, seconds_per_day in *; simpl; lia].
    unfold _store_daily_selection. simpl.
    apply in_or_app. right. now apply in_map.
  - unfold generate_daily_selection in Hc. rewrite Hu in Hc. destruct Hc.
Qed.

Lemma regeneration_offers_new_candidates_witness :
  match fst (generate_daily_selection Scenario.db_crowd 1 1000),
        fst (generate_daily_selection
               (snd (generate_daily_selection Scenario.db_crowd 1 1000)) 1 2000)
  with
  | c :: _, c' :: _ => user_id c' <> user_id c
  | _, _ => False
  end.
Proof.
  destruct (fst (generate_daily_selection Scenario.db_crowd 1 1000))
    as [|c l] eqn:E1; [vm_compute in E1; discriminate E1|].
  destruct (fst (generate_daily_selection
                   (snd (generate_daily_selection Scenario.db_crowd 1 1000))
                   1 2000))
    as [|c' l'] eqn:E2; [vm_compute in E2; discriminate E2|].
  apply (@regeneration_offers_new_candidates Scenario.db_crowd 1 1000 2000 c c').
  - vm_compute. reflexivity.
  - rewrite E1. now left.
  - rewrite E2. now left.
Defined.
